(** * HydroDraw: the persistent project store (backend/storage.py)

    A shallow embedding of [JSONStore], the class that keeps the CAD
    projects of the application in one JSON file, and the properties of
    its five operations: [get_projects], [get_project], [create_project],
    [update_project] and [delete_project], together with [__init__].

    Modelling decisions:
    - A decoded JSON document is a value of [json]. Python dictionaries
      with string keys are finite maps ([gmap string json]); two
      dictionaries are equal in Python exactly when they have the same
      keys with equal values, which on [gmap] is Leibniz equality.
      A float is kept as the pair of its mantissa and binary exponent;
      the store never looks inside a number.
    - The collection file is described by what [open] followed by
      [json.load] does with it: the file is absent; or its bytes are not
      text in the encoding of the platform; or they are text that is not
      JSON; or JSON text that the interpreter cannot load, being nested
      too deep or holding an integer of too many digits; or the text of a
      document. [json.dump] followed by [json.load] gives back the
      document, for the values of [json]: all of them are native JSON
      values with string keys, so the [default=str] fallback of
      [_write_json] is never taken, and they stand for documents within
      the limits of the interpreter, which [json.dump] writes out in
      full.
    - Python exceptions are values of [exn]; an operation is a function
      from the state of the world to a result and the new state.
    - The world records every call of [_write_json], so that "performs
      no write" can be told apart from "writes the same contents". *)

From stdpp Require Import gmap strings list fin_maps.

#[local] Set Warnings "-register-all".

(** ** JSON documents *)

Inductive json : Type :=
  | JNull
  | JBool (b : bool)
  | JInt (n : Z)
  | JFloat (mantissa exponent : Z)
  | JStr (s : string)
  | JList (l : list json)
  | JDict (d : gmap string json).

(** A project record: [Dict[str, Any]]. *)
Abbreviation record := (gmap string json).

(** ** Exceptions and results *)

Inductive exn : Type :=
  | FileNotFoundError
  | JSONDecodeError
  | UnicodeDecodeError
  | RecursionError
  | ValueError
  | AttributeError
  | TypeError
  | ValidationError.

Inductive result (A : Type) : Type :=
  | Ok (a : A)
  | Raise (e : exn).
Arguments Ok {A} a.
Arguments Raise {A} e.

(** ** The file system, as far as the store touches it *)

(** A limit of the interpreter that JSON text can go beyond: the depth of
    the recursion of the decoder, and the number of digits of an integer
    ([sys.get_int_max_str_digits()]). *)
Inductive limit : Type :=
  | Nesting
  | Digits.

(** The collection file [projects.json], by what [open(file_path, 'r')]
    and [json.load] make of its contents. *)
Inductive file : Type :=
  | Absent                                  (* no such file *)
  | NotText (bytes : list Byte.byte)        (* bytes the encoding cannot decode *)
  | Garbage (text : string)                 (* text that is not JSON *)
  | OverLimit (text : string) (l : limit)   (* JSON text beyond a limit *)
  | Document (v : json).                    (* the text of the document [v] *)

(** The storage root [data_dir], with the collection file inside it. *)
Inductive storage_root : Type :=
  | NoDir
  | Dir (projects_file : file).

Record world : Type := World {
  root : storage_root;
  writes : list json   (* the arguments of [_write_json], latest first *)
}.

(** ** Operations as state transformers that may raise *)

Definition M (A : Type) : Type := world → result A * world.

Definition ret {A} (a : A) : M A := λ w, (Ok a, w).
Definition raise {A} (e : exn) : M A := λ w, (Raise e, w).
Definition bind {A B} (m : M A) (k : A → M B) : M B :=
  λ w, match m w with
       | (Ok a, w') => k a w'
       | (Raise e, w') => (Raise e, w')
       end.
Definition lift {A} (r : result A) : M A := λ w, (r, w).

Notation "'let*' x := m 'in' k" := (bind m (λ x, k))
  (at level 10, x binder, k at level 200).
Notation "m ;;; k" := (bind m (λ _, k))
  (at level 100, right associativity).

(** [try: m except (e1, e2): return a] *)
Definition try_except {A} (m : M A) (caught : exn → bool) (a : A) : M A :=
  λ w, match m w with
       | (Raise e, w') => if caught e then (Ok a, w') else (Raise e, w')
       | r => r
       end.

(** ** Python primitives used by the store *)

(** [open(file_path, 'r')] then [json.load(f)]: [open] raises when there
    is no file, [f.read()] when the bytes are not text, the decoder when
    the text is not JSON or goes beyond a limit of the interpreter. *)
Definition json_load : M json :=
  λ w, match root w with
       | NoDir => (Raise FileNotFoundError, w)
       | Dir Absent => (Raise FileNotFoundError, w)
       | Dir (NotText _) => (Raise UnicodeDecodeError, w)
       | Dir (Garbage _) => (Raise JSONDecodeError, w)
       | Dir (OverLimit _ Nesting) => (Raise RecursionError, w)
       | Dir (OverLimit _ Digits) => (Raise ValueError, w)
       | Dir (Document v) => (Ok v, w)
       end.

(** [open(file_path, 'w')]: the file is created, or emptied when it is
    there; its directory has to exist. *)
Definition open_w : M () :=
  λ w, match root w with
       | NoDir => (Raise FileNotFoundError, w)
       | Dir _ => (Ok (), World (Dir (Garbage "")) (writes w))
       end.

(** [json.dump(data, f, indent=2, default=str)] into the emptied file. A
    value of [json] is written out in full (see the head of the file). *)
Definition dump (data : json) : M () :=
  λ w, (Ok (), World (Dir (Document data)) (data :: writes w)).

Definition json_dump (data : json) : M () :=
  open_w ;;; dump data.

(** [for p in projects]: a list gives its items, a dictionary its keys, a
    string its characters; nothing else can be iterated. *)
Definition py_iter (v : json) : result (list json) :=
  match v with
  | JList l => Ok l
  | JDict d => Ok (JStr <$> (map_to_list d).*1)
  | JStr s => Ok ((λ c, JStr (String c EmptyString)) <$> String.list_ascii_of_string s)
  | _ => Raise TypeError
  end.

(** [len(projects)] *)
Definition py_len (v : json) : result nat :=
  match v with
  | JList l => Ok (length l)
  | JDict d => Ok (size d)
  | JStr s => Ok (String.length s)
  | _ => Raise TypeError
  end.

(** [projects.append(x)]: only a list has [append]. *)
Definition py_append (v x : json) : result json :=
  match v with
  | JList l => Ok (JList (l ++ [x]))
  | _ => Raise AttributeError
  end.

(** [projects[i] = x] on a list; [i] comes from [enumerate], so it is in
    range. On anything else the loop of [update_project] has raised before
    it gets here (the items of a dictionary or a string are strings). *)
Definition py_setitem (v : json) (i : nat) (x : json) : result json :=
  match v with
  | JList l => Ok (JList (<[i:=x]> l))
  | _ => Raise TypeError
  end.

(** [p.get('id') == project_id] for a dictionary [p] and a string
    [project_id]: a missing key gives [None], and only a string is equal
    to a string. *)
Definition id_is (project_id : string) (p : record) : bool :=
  match p !! "id" with
  | Some (JStr s) => bool_decide (s = project_id)
  | _ => false
  end.

(** ** JSONStore *)

Definition mkdir_exist_ok : M () :=
  λ w, match root w with
       | NoDir => (Ok (), World (Dir Absent) (writes w))
       | Dir _ => (Ok (), w)
       end.

Definition exists_ : M bool :=
  λ w, match root w with
       | NoDir | Dir Absent => (Ok false, w)
       | Dir _ => (Ok true, w)
       end.

Definition _write_json (data : json) : M () := json_dump data.

Definition _read_json : M json :=
  try_except json_load
    (λ e, match e with
          | JSONDecodeError | FileNotFoundError => true
          | _ => false
          end)
    (JList []).

(** [base_path] is the home directory or the directory of the module,
    by [sys.frozen]; either way it is one directory, fixed for the life of
    the store, and [root] is the state of [base_path / data_dir]. *)
Definition __init__ : M () :=
  mkdir_exist_ok ;;;
  let* present := exists_ in
  if negb present then _write_json (JList []) else ret ().

Definition get_projects : M json := _read_json.

(** The loop of [get_project]; [p.get] raises on an item that is not a
    dictionary. *)
Fixpoint get_project_loop (project_id : string) (items : list json)
  : result (option record) :=
  match items with
  | [] => Ok None
  | JDict p :: rest =>
      if id_is project_id p then Ok (Some p)
      else get_project_loop project_id rest
  | _ :: _ => Raise AttributeError
  end.

Definition get_project (project_id : string) : M (option record) :=
  let* projects := get_projects in
  let* items := lift (py_iter projects) in
  lift (get_project_loop project_id items).

Definition create_project (project_data : record) : M record :=
  let* projects := get_projects in
  let* projects := lift (py_append projects (JDict project_data)) in
  _write_json projects ;;;
  ret project_data.

(** The scan of [update_project]: the index and the merged record
    [{**p, **update_data}] of the first item whose id matches. *)
Fixpoint update_project_loop (project_id : string) (update_data : record)
  (i : nat) (items : list json) : result (option (nat * record)) :=
  match items with
  | [] => Ok None
  | JDict p :: rest =>
      if id_is project_id p then Ok (Some (i, update_data ∪ p))
      else update_project_loop project_id update_data (S i) rest
  | _ :: _ => Raise AttributeError
  end.

Definition update_project (project_id : string) (update_data : record)
  : M (option record) :=
  let* projects := get_projects in
  let* items := lift (py_iter projects) in
  let* found := lift (update_project_loop project_id update_data 0 items) in
  match found with
  | Some (i, updated_project) =>
      let* projects := lift (py_setitem projects i (JDict updated_project)) in
      _write_json projects ;;;
      ret (Some updated_project)
  | None => ret None
  end.

(** [[p for p in projects if p.get('id') != project_id]] *)
Fixpoint delete_project_filter (project_id : string) (items : list json)
  : result (list json) :=
  match items with
  | [] => Ok []
  | JDict p :: rest =>
      match delete_project_filter project_id rest with
      | Ok kept => Ok (if id_is project_id p then kept else JDict p :: kept)
      | Raise e => Raise e
      end
  | _ :: _ => Raise AttributeError
  end.

Definition delete_project (project_id : string) : M bool :=
  let* projects := get_projects in
  let* initial_len := lift (py_len projects) in
  let* items := lift (py_iter projects) in
  let* projects := lift (delete_project_filter project_id items) in
  if bool_decide (length projects < initial_len) then
    _write_json (JList projects) ;;;
    ret true
  else ret false.

(** ** What the store holds *)

(** [holds w items]: the storage root exists and [get_projects] yields the
    sequence [items] (the empty sequence when the file is missing or its
    text is not JSON). A sequence of records is [JDict <$> recs]. *)
Definition holds (w : world) (items : list json) : Prop :=
  match root w with
  | Dir (Document v) => v = JList items
  | Dir Absent | Dir (Garbage _) => items = []
  | _ => False
  end.

(** The world after [_write_json(projects_file, JList items)]. *)
Definition written (items : list json) (w : world) : world :=
  World (Dir (Document (JList items))) (JList items :: writes w).

(** [json.load] does not give a document, for whatever reason. *)
Definition unreadable (w : world) : bool :=
  match root w with
  | Dir (Document _) => false
  | _ => true
  end.

(** The file (or its directory) is missing, or its text is not JSON: the
    two failures that [_read_json] names in its [except] clause. *)
Definition missing_or_not_json (w : world) : bool :=
  match root w with
  | NoDir | Dir Absent | Dir (Garbage _) => true
  | _ => false
  end.

(** A file of one byte that is not text, in UTF-8 as in cp1252. *)
Definition not_text : world :=
  World (Dir (NotText [Byte.x81])) [].

(** The first record with the id [project_id] is [p], at index [i]. *)
Definition first_match (project_id : string) (recs : list record) (i : nat)
  (p : record) : Prop :=
  recs !! i = Some p ∧ id_is project_id p = true ∧
  existsb (id_is project_id) (take i recs) = false.

(** The records that [delete_project] keeps. *)
Definition others (project_id : string) (recs : list record) : list record :=
  List.filter (λ p, negb (id_is project_id p)) recs.

(** Where a record that is kept ends up after [delete_project]: its index
    moves down by the number of records removed before it. *)
Definition removed_before (project_id : string) (i : nat) (recs : list record)
  : nat :=
  length (List.filter (id_is project_id) (take i recs)).

(** The exceptions of reading the file and of scanning what was read,
    which no call of [_write_json] raises for a value of [json]. *)
Definition read_or_scan_error (e : exn) : bool :=
  match e with
  | UnicodeDecodeError | AttributeError | TypeError => true
  | _ => false
  end.

(** What an operation may do to the world [w]: nothing when it raises an
    error of reading or scanning, nothing or one write of a list when it
    returns. *)
Definition writes_once_or_nothing {A} (m : M A) (w : world) : Prop :=
  match m w with
  | (Raise e, w') => read_or_scan_error e = true → w' = w
  | (Ok _, w') => w' = w ∨ ∃ items, w' = written items w
  end.

(** [p] is a dictionary, the only kind of value with a [get] method. *)
Definition is_dict (v : json) : bool :=
  match v with
  | JDict _ => true
  | _ => false
  end.

(** The id of a record, when it has one that is a string. *)
Definition string_id (p : record) : option string :=
  match p !! "id" with
  | Some (JStr s) => Some s
  | _ => None
  end.

(** The string ids of a sequence of records, in order. *)
Definition ids (recs : list record) : list string := omap string_id recs.

(** Concrete records and worlds for the examples below. *)
Definition p1_A : record := {[ "id" := JStr "p1"; "name" := JStr "A"; "x" := JInt 1 ]}.
Definition p1_B : record := {[ "id" := JStr "p1"; "name" := JStr "B"; "x" := JInt 1 ]}.
Definition p1_C : record := {[ "id" := JStr "p1"; "name" := JStr "C" ]}.
Definition p2 : record := {[ "id" := JStr "p2"; "name" := JStr "second" ]}.
Definition p3 : record := {[ "id" := JStr "p3"; "name" := JStr "third" ]}.
Definition no_id : record := {[ "name" := JStr "anonymous" ]}.
Definition name_B : record := {[ "name" := JStr "B" ]}.

Definition storing (recs : list record) : world :=
  World (Dir (Document (JList (JDict <$> recs)))) [].

(** ** The API layer (backend/server.py)

    The handlers of the project routes. The request bodies are the values
    pydantic has validated; the clock and the id generator are arguments:
    [now] is what [datetime.now(timezone.utc).isoformat()] returns and
    [new_id] what [str(uuid.uuid4())] returns. A handler ends by returning,
    by raising [HTTPException], or with an exception that it does not
    catch: one of the store, or the [ValidationError] of pydantic when a
    stored record does not make a [CADProject]. *)

(** [storage], the instance of [JSONStore] made when the module is loaded. *)
Module storage.
Definition get_projects := get_projects.
Definition get_project := get_project.
Definition create_project := create_project.
Definition update_project := update_project.
Definition delete_project := delete_project.
End storage.

Module CADProjectCreate.
Record t : Type := Build {
  name : string;
  description : option string;
  canvas_width : Z * Z;
  canvas_height : Z * Z
}.
End CADProjectCreate.

Module CADProjectUpdate.
Record t : Type := Build {
  name : option string;
  description : option string;
  elements : option (list record);
  layers : option (list record);
  canvas_width : option (Z * Z);
  canvas_height : option (Z * Z);
  grid_size : option Z;
  grid_enabled : option bool;
  snap_to_grid : option bool
}.
End CADProjectUpdate.

Module server.

(** [Return data]: the handler returns. For the get and update routes
    [data] holds the keyword arguments of the [CADProject] that is
    returned, which pydantic has accepted; for the create route it is the
    dump of the returned model; for the delete route it is the message. *)
Inductive outcome : Type :=
  | Return (data : record)
  | HTTPException (status_code : nat)
  | Uncaught (e : exn).

Definition handler : Type := world → outcome * world.

(** A field of a model in [model_dump()]: [None] is [JNull]. *)
Definition dump {A} (to_json : A → json) (field : option A) : json :=
  from_option to_json JNull field.

Definition float_json (f : Z * Z) : json := JFloat f.1 f.2.
Definition records_json (l : list record) : json := JList (JDict <$> l).

(** [v is None] *)
Definition is_None (v : json) : bool :=
  match v with
  | JNull => true
  | _ => false
  end.

(** [not d] for what [get_project] and [update_project] of the store
    return: [None] and the empty dictionary are false. *)
Definition not_ (d : option record) : bool :=
  match d with
  | None => true
  | Some d => bool_decide (size d = 0)
  end.

(** The default of [CADProject.layers]. *)
Definition default_layers : json :=
  JList [JDict {[ "id" := JStr "default"; "name" := JStr "Layer 1";
                  "visible" := JBool true; "locked" := JBool false;
                  "color" := JStr "#3B82F6" ]}].

(** [doc]: the dump of the [CADProject] made from [input.model_dump()],
    with its two dates in ISO format. *)
Definition doc (input : CADProjectCreate.t) (new_id created_at updated_at : string)
  : record :=
  {[ "id" := JStr new_id;
     "name" := JStr (CADProjectCreate.name input);
     "description" := dump JStr (CADProjectCreate.description input);
     "elements" := JList [];
     "layers" := default_layers;
     "canvas_width" := float_json (CADProjectCreate.canvas_width input);
     "canvas_height" := float_json (CADProjectCreate.canvas_height input);
     "grid_size" := JInt 20;
     "grid_enabled" := JBool true;
     "snap_to_grid" := JBool true;
     "created_at" := JStr created_at;
     "updated_at" := JStr updated_at ]}.

(** The route returns [project], the model that [doc] is the dump of. *)
Definition create_project (input : CADProjectCreate.t)
  (new_id created_at updated_at : string) : handler :=
  λ w, match storage.create_project (doc input new_id created_at updated_at) w with
       | (Ok saved_project, w') =>
           (Return (doc input new_id created_at updated_at), w')
       | (Raise e, w') => (Uncaught e, w')
       end.

(** [input.model_dump()] of a [CADProjectUpdate]. *)
Definition model_dump (input : CADProjectUpdate.t) : record :=
  {[ "name" := dump JStr (CADProjectUpdate.name input);
     "description" := dump JStr (CADProjectUpdate.description input);
     "elements" := dump records_json (CADProjectUpdate.elements input);
     "layers" := dump records_json (CADProjectUpdate.layers input);
     "canvas_width" := dump float_json (CADProjectUpdate.canvas_width input);
     "canvas_height" := dump float_json (CADProjectUpdate.canvas_height input);
     "grid_size" := dump JInt (CADProjectUpdate.grid_size input);
     "grid_enabled" := dump JBool (CADProjectUpdate.grid_enabled input);
     "snap_to_grid" := dump JBool (CADProjectUpdate.snap_to_grid input) ]}.

(** [{k: v for k, v in input.model_dump().items() if v is not None}], then
    [update_data['updated_at'] = now]. *)
Definition update_data (input : CADProjectUpdate.t) (now : string) : record :=
  <["updated_at" := JStr now]>
    (filter (λ kv, is_None kv.2 = false) (model_dump input)).

Definition delete_project (project_id : string) : handler :=
  λ w, match storage.delete_project project_id w with
       | (Ok success, w') =>
           if negb success then (HTTPException 404, w')
           else (Return {[ "message" := JStr "Project deleted successfully" ]}, w')
       | (Raise e, w') => (Uncaught e, w')
       end.

(** *** The validation of [CADProject]

    The model has twelve fields; only [name] is required, a field that is
    left out takes its default, and keys that are not fields are ignored
    ([extra="ignore"]). A value of the type of its field is accepted, and
    [None], a list or a dictionary is never a string, a number, a truth
    value or a date. In between, pydantic converts in its lax mode: a
    numeric string or a truth value for a number, 0 and 1 for a truth
    value, an ISO string or a timestamp for a date. Which values it
    converts is pydantic's own and is taken as given here. *)

(** The kinds of field with lax conversions. *)
Inductive kind : Type :=
  | KFloat
  | KInt
  | KBool
  | KDatetime.

Definition is_str (v : json) : bool :=
  match v with
  | JStr _ => true
  | _ => false
  end.

Definition is_optional_str (v : json) : bool :=
  match v with
  | JNull | JStr _ => true
  | _ => false
  end.

(** [List[Dict[str, Any]]] *)
Definition is_list_of_dicts (v : json) : bool :=
  match v with
  | JList l => forallb is_dict l
  | _ => false
  end.

(** A field with a default: absent, or checked. *)
Definition field (check : json → bool) (data : record) (k : string) : bool :=
  match data !! k with
  | Some v => check v
  | None => true
  end.

(** A field without a default. *)
Definition required (check : json → bool) (data : record) (k : string)
  : bool :=
  match data !! k with
  | Some v => check v
  | None => false
  end.

Section pydantic.

(** [lax k v]: pydantic converts the value [v], which is not of the type
    of the field, to the kind [k]. *)
Variable lax : kind → json → bool.

Definition scalar (k : kind) (v : json) : bool :=
  match v with
  | JNull | JList _ | JDict _ => false
  | _ =>
      match k, v with
      | KFloat, JFloat _ _ => true
      | KInt, JInt n =>
          if bool_decide (- 2 ^ 63 ≤ n < 2 ^ 63)%Z then true else lax k v
      | KBool, JBool _ => true
      | _, _ => lax k v
      end
  end.

(** [CADProject] applied to the keyword arguments [data]: they make a
    model, no [ValidationError] is raised. *)
Definition validates (data : record) : bool :=
  field is_str data "id" &&
  required is_str data "name" &&
  field is_optional_str data "description" &&
  field is_list_of_dicts data "elements" &&
  field is_list_of_dicts data "layers" &&
  field (scalar KFloat) data "canvas_width" &&
  field (scalar KFloat) data "canvas_height" &&
  field (scalar KInt) data "grid_size" &&
  field (scalar KBool) data "grid_enabled" &&
  field (scalar KBool) data "snap_to_grid" &&
  field (scalar KDatetime) data "created_at" &&
  field (scalar KDatetime) data "updated_at".

(** [return CADProject(...)] on the keyword arguments [data]. *)
Definition return_CADProject (data : record) (w : world) : outcome * world :=
  if validates data then (Return data, w) else (Uncaught ValidationError, w).

Definition get_project (project_id : string) : handler :=
  λ w, match storage.get_project project_id w with
       | (Ok project_data, w') =>
           match project_data with
           | Some data =>
               if not_ project_data then (HTTPException 404, w')
               else return_CADProject data w'
           | None => (HTTPException 404, w')
           end
       | (Raise e, w') => (Uncaught e, w')
       end.

Definition update_project (project_id : string) (input : CADProjectUpdate.t)
  (now : string) : handler :=
  λ w, match storage.get_project project_id w with
       | (Raise e, w') => (Uncaught e, w')
       | (Ok existing, w') =>
           if not_ existing then (HTTPException 404, w')
           else
             match storage.update_project project_id (update_data input now) w' with
             | (Raise e, w'') => (Uncaught e, w'')
             | (Ok updated_project_data, w'') =>
                 match updated_project_data with
                 | Some data =>
                     if not_ updated_project_data then (HTTPException 404, w'')
                     else return_CADProject data w''
                 | None => (HTTPException 404, w'')
                 end
             end
       end.

End pydantic.

(** A reading of [lax] for the examples: every string is taken for a
    date, and nothing else is converted. *)
Definition dates_only (k : kind) (v : json) : bool :=
  match k, v with
  | KDatetime, JStr _ => true
  | _, _ => false
  end.

End server.

(** A request for a new project with the default canvas. *)
Definition new_project : CADProjectCreate.t :=
  CADProjectCreate.Build "Pump house" None (2000, 0)%Z (1500, 0)%Z.

(** A request that renames the project and says nothing else. *)
Definition rename_to_B : CADProjectUpdate.t :=
  CADProjectUpdate.Build (Some "B") None None None None None None None None.

(** ** Proof steps *)

Ltac run :=
  unfold get_project, create_project, update_project, delete_project,
    __init__, get_projects, _read_json, _write_json, mkdir_exist_ok, exists_,
    try_except, json_load, json_dump, open_w, dump, bind, lift, ret, written;
  simpl.

(** The calls of a handler on [storage] are calls of the store. *)
Ltac to_store :=
  unfold server.create_project, server.get_project, server.update_project,
    server.delete_project, server.return_CADProject, storage.create_project,
    storage.get_project, storage.update_project, storage.delete_project.

(** Case analysis on a world that [holds] a sequence. *)
Ltac holds_cases w H :=
  destruct w as [[|[|?|?|? ?|?]] ?]; unfold holds in H; simpl in H;
  [done|subst|done|subst|done|subst].

(** ** The loops, on a sequence of records *)

Section loops.
Context (project_id : string).

Lemma existsb_false_lookup (recs : list record) i p :
  existsb (id_is project_id) recs = false →
  recs !! i = Some p → id_is project_id p = false.
Proof.
  revert i. induction recs as [|q recs IH]; intros i Hex Hi; [done|].
  simpl in Hex. apply orb_false_iff in Hex as [Hq Hrest].
  destruct i as [|i]; simpl in Hi.
  - by inversion Hi; subst.
  - by eapply IH.
Qed.

Lemma first_match_cons_hit (p : record) recs :
  id_is project_id p = true → first_match project_id (p :: recs) 0 p.
Proof. by intros Hp. Qed.

Lemma first_match_cons_miss (q : record) recs i p :
  id_is project_id q = false →
  first_match project_id recs i p →
  first_match project_id (q :: recs) (S i) p.
Proof.
  intros Hq (Hi & Hp & Hbefore). repeat split; [done..|].
  simpl. by rewrite Hq.
Qed.

Lemma first_match_uncons (q : record) recs i p :
  id_is project_id q = false →
  first_match project_id (q :: recs) i p →
  ∃ i', i = S i' ∧ first_match project_id recs i' p.
Proof.
  intros Hq (Hi & Hp & Hbefore). destruct i as [|i]; simpl in Hi.
  - inversion Hi; subst. congruence.
  - exists i. split; [done|]. repeat split; [done..|].
    simpl in Hbefore. by rewrite Hq in Hbefore.
Qed.

Lemma first_match_cons_hit_inv (q : record) recs i p :
  id_is project_id q = true →
  first_match project_id (q :: recs) i p → i = 0 ∧ p = q.
Proof.
  intros Hq (Hi & Hp & Hbefore). destruct i as [|i]; simpl in *.
  - by inversion Hi.
  - by rewrite Hq in Hbefore.
Qed.

(** Either no record matches, or there is a first one that does. *)
Lemma first_match_or_none (recs : list record) :
  existsb (id_is project_id) recs = false ∨
  ∃ i p, first_match project_id recs i p.
Proof.
  induction recs as [|q recs IH]; [by left|].
  destruct (id_is project_id q) eqn:Hq.
  - right. exists 0, q. by apply first_match_cons_hit.
  - destruct IH as [Hnone|(i & p & Hfirst)].
    + left. simpl. by rewrite Hq.
    + right. exists (S i), p. by apply first_match_cons_miss.
Qed.

Lemma first_match_existsb (recs : list record) i p :
  first_match project_id recs i p → existsb (id_is project_id) recs = true.
Proof.
  intros (Hi & Hp & _). apply existsb_exists. exists p. split; [|done].
  apply list_elem_of_In. by eapply list_elem_of_lookup_2.
Qed.

Lemma get_project_loop_none (recs : list record) :
  existsb (id_is project_id) recs = false →
  get_project_loop project_id (JDict <$> recs) = Ok None.
Proof.
  induction recs as [|q recs IH]; [done|]. simpl. intros Hex.
  apply orb_false_iff in Hex as [-> Hrest]. by apply IH.
Qed.

Lemma get_project_loop_first (recs : list record) i p :
  first_match project_id recs i p →
  get_project_loop project_id (JDict <$> recs) = Ok (Some p).
Proof.
  revert i. induction recs as [|q recs IH]; intros i Hfirst.
  - by destruct Hfirst as [Hi _].
  - simpl. destruct (id_is project_id q) eqn:Hq.
    + by apply first_match_cons_hit_inv in Hfirst as [_ ->].
    + apply first_match_uncons in Hfirst as (i' & -> & Hfirst); [|done].
      by eapply IH.
Qed.

Lemma update_project_loop_none (update_data : record) i0 (recs : list record) :
  existsb (id_is project_id) recs = false →
  update_project_loop project_id update_data i0 (JDict <$> recs) = Ok None.
Proof.
  revert i0. induction recs as [|q recs IH]; intros i0; [done|].
  simpl. intros Hex. apply orb_false_iff in Hex as [-> Hrest]. by apply IH.
Qed.

Lemma update_project_loop_first (update_data : record) i0 (recs : list record) i p :
  first_match project_id recs i p →
  update_project_loop project_id update_data i0 (JDict <$> recs)
  = Ok (Some (i0 + i, update_data ∪ p)).
Proof.
  revert i0 i. induction recs as [|q recs IH]; intros i0 i Hfirst.
  - by destruct Hfirst as [Hi _].
  - simpl. destruct (id_is project_id q) eqn:Hq.
    + apply first_match_cons_hit_inv in Hfirst as [-> ->]; [|done].
      by rewrite Nat.add_0_r.
    + apply first_match_uncons in Hfirst as (i' & -> & Hfirst); [|done].
      trans (Ok (A:=option (nat * record)) (Some (S i0 + i', update_data ∪ p)));
        [by apply IH | do 3 f_equal; lia].
Qed.

Lemma delete_project_filter_records (recs : list record) :
  delete_project_filter project_id (JDict <$> recs)
  = Ok (JDict <$> others project_id recs).
Proof.
  induction recs as [|q recs IH]; [done|].
  rewrite fmap_cons. cbn [delete_project_filter]. rewrite IH.
  simpl. by destruct (id_is project_id q).
Qed.

Lemma others_length (recs : list record) :
  length (others project_id recs) ≤ length recs.
Proof.
  induction recs as [|q recs IH]; simpl; [done|].
  destruct (id_is project_id q); simpl; lia.
Qed.

Lemma others_none (recs : list record) :
  existsb (id_is project_id) recs = false → others project_id recs = recs.
Proof.
  induction recs as [|q recs IH]; simpl; [done|]. intros Hex.
  apply orb_false_iff in Hex as [-> Hrest]. simpl. by rewrite IH.
Qed.

Lemma others_some (recs : list record) :
  existsb (id_is project_id) recs = true →
  length (others project_id recs) < length recs.
Proof.
  induction recs as [|q recs IH]; simpl; [done|]. intros Hex.
  pose proof (others_length recs).
  destruct (id_is project_id q); simpl in *; [lia|].
  specialize (IH Hex). lia.
Qed.

Lemma elem_of_others (recs : list record) p :
  p ∈ others project_id recs ↔ p ∈ recs ∧ id_is project_id p = false.
Proof.
  unfold others. rewrite !list_elem_of_In, filter_In, negb_true_iff.
  done.
Qed.
End loops.

(** ** The operations, on a store that holds a sequence *)

Lemma holds_written items w : holds (written items w) items.
Proof. done. Qed.

Lemma get_projects_holds w items :
  holds w items → get_projects w = (Ok (JList items), w).
Proof. intros H. holds_cases w H; done. Qed.

Lemma create_project_holds w items (project_data : record) :
  holds w items →
  create_project project_data w
  = (Ok project_data, written (items ++ [JDict project_data]) w).
Proof. intros H. holds_cases w H; done. Qed.

Lemma get_project_none w (recs : list record) project_id :
  holds w (JDict <$> recs) →
  existsb (id_is project_id) recs = false →
  get_project project_id w = (Ok None, w).
Proof.
  intros H Hex. pose proof (get_project_loop_none project_id recs Hex) as Hloop.
  holds_cases w H; run.
  - by destruct recs.
  - by destruct recs.
  - by rewrite Hloop.
Qed.

Lemma get_project_first w (recs : list record) project_id i p :
  holds w (JDict <$> recs) →
  first_match project_id recs i p →
  get_project project_id w = (Ok (Some p), w).
Proof.
  intros H Hfirst.
  pose proof (get_project_loop_first project_id recs i p Hfirst) as Hloop.
  holds_cases w H; run.
  - destruct recs; [by destruct Hfirst|done].
  - destruct recs; [by destruct Hfirst|done].
  - by rewrite Hloop.
Qed.

Lemma update_project_none w (recs : list record) project_id update_data :
  holds w (JDict <$> recs) →
  existsb (id_is project_id) recs = false →
  update_project project_id update_data w = (Ok None, w).
Proof.
  intros H Hex.
  pose proof (update_project_loop_none project_id update_data 0 recs Hex)
    as Hloop.
  holds_cases w H; run.
  - by destruct recs.
  - by destruct recs.
  - by rewrite Hloop.
Qed.

Lemma update_project_first w (recs : list record) project_id update_data i p :
  holds w (JDict <$> recs) →
  first_match project_id recs i p →
  update_project project_id update_data w
  = (Ok (Some (update_data ∪ p)),
     written (JDict <$> <[i := update_data ∪ p]> recs) w).
Proof.
  intros H Hfirst.
  pose proof (update_project_loop_first project_id update_data 0 recs i p
                Hfirst) as Hloop.
  holds_cases w H; run.
  - destruct recs; [by destruct Hfirst|done].
  - destruct recs; [by destruct Hfirst|done].
  - rewrite Hloop. simpl. by rewrite list_fmap_insert.
Qed.

Lemma delete_project_holds w (recs : list record) project_id :
  holds w (JDict <$> recs) →
  delete_project project_id w
  = if existsb (id_is project_id) recs
    then (Ok true, written (JDict <$> others project_id recs) w)
    else (Ok false, w).
Proof.
  intros H.
  pose proof (delete_project_filter_records project_id recs) as Hfilter.
  holds_cases w H; run.
  - by destruct recs.
  - by destruct recs.
  - rewrite Hfilter. simpl. rewrite !length_fmap.
    destruct (existsb (id_is project_id) recs) eqn:Hex.
    + by rewrite bool_decide_eq_true_2 by by apply others_some.
    + rewrite others_none by done.
      by rewrite bool_decide_eq_false_2 by lia.
Qed.

(** The store keeps holding a sequence of records: every world reached
    from one that holds records, by any operation, holds records. *)
Lemma create_project_preserves w (recs : list record) project_data :
  holds w (JDict <$> recs) →
  holds (create_project project_data w).2 (JDict <$> (recs ++ [project_data])).
Proof.
  intros H. rewrite (create_project_holds w _ project_data H), fmap_app.
  apply holds_written.
Qed.

Lemma update_project_preserves w (recs : list record) project_id update_data :
  holds w (JDict <$> recs) →
  ∃ recs' : list record,
    holds (update_project project_id update_data w).2 (JDict <$> recs').
Proof.
  intros H. destruct (first_match_or_none project_id recs)
    as [Hnone|(i & p & Hfirst)].
  - exists recs. by rewrite (update_project_none w recs _ _ H Hnone).
  - eexists. rewrite (update_project_first w recs _ _ i p H Hfirst).
    apply holds_written.
Qed.

Lemma delete_project_preserves w (recs : list record) project_id :
  holds w (JDict <$> recs) →
  ∃ recs' : list record, holds (delete_project project_id w).2 (JDict <$> recs').
Proof.
  intros H. rewrite (delete_project_holds w recs _ H).
  destruct (existsb _ _); [|by exists recs].
  eexists. apply holds_written.
Qed.

Lemma others_app project_id (l1 l2 : list record) :
  others project_id (l1 ++ l2) = others project_id l1 ++ others project_id l2.
Proof. unfold others. apply List.filter_app. Qed.

Lemma others_length_split project_id (recs : list record) :
  length (others project_id recs)
  + length (List.filter (id_is project_id) recs) = length recs.
Proof.
  unfold others. induction recs as [|q recs IH]; [done|].
  simpl. destruct (id_is project_id q); simpl; lia.
Qed.

Lemma others_lookup project_id (recs : list record) i p :
  recs !! i = Some p → id_is project_id p = false →
  others project_id recs !! (i - removed_before project_id i recs) = Some p.
Proof.
  intros Hi Hp. unfold removed_before.
  assert (length (take i recs) = i) as Hlen.
  { apply length_take_le. apply lookup_lt_Some in Hi. lia. }
  assert (others project_id recs
          = others project_id (take i recs)
            ++ p :: others project_id (drop (S i) recs)) as ->.
  { rewrite <- (take_drop_middle recs i p Hi) at 1.
    rewrite others_app. simpl. by rewrite Hp. }
  pose proof (others_length_split project_id (take i recs)) as Hsplit.
  apply list_lookup_middle. lia.
Qed.

Lemma others_sublist project_id (recs : list record) :
  sublist (others project_id recs) recs.
Proof.
  induction recs as [|q recs IH]; simpl; [done|].
  destruct (id_is project_id q); simpl; by constructor.
Qed.

(** * Properties of the store *)

(** ** Round trip of [create_project] and [get_project] *)

(** C1, as amended. A record with the string id [project_id], created in a
    store none of whose records has that id, is what [get_project] with
    that id returns afterwards: the very record, field for field. *)
Theorem create_then_get_fresh_id w (recs : list record)
    (project_data : record) project_id :
  holds w (JDict <$> recs) →
  project_data !! "id" = Some (JStr project_id) →
  existsb (id_is project_id) recs = false →
  create_project project_data w
  = (Ok project_data, written (JDict <$> (recs ++ [project_data])) w) ∧
  get_project project_id (written (JDict <$> (recs ++ [project_data])) w)
  = (Ok (Some project_data), written (JDict <$> (recs ++ [project_data])) w).
Proof.
  intros H Hid Hfresh. split.
  - by rewrite fmap_app; apply create_project_holds.
  - apply (get_project_first _ (recs ++ [project_data]) _ (length recs));
      [apply holds_written|].
    repeat split.
    + by apply list_lookup_middle.
    + unfold id_is. rewrite Hid. by apply bool_decide_eq_true_2.
    + by rewrite take_app_length.
Qed.

Lemma create_then_get_fresh_id_witness :
  holds (storing [p1_A; p2]) (JDict <$> [p1_A; p2]) ∧
  p3 !! "id" = Some (JStr "p3") ∧
  existsb (id_is "p3") [p1_A; p2] = false ∧
  create_project p3 (storing [p1_A; p2])
  = (Ok p3, written (JDict <$> ([p1_A; p2] ++ [p3])) (storing [p1_A; p2])) ∧
  get_project "p3" (written (JDict <$> ([p1_A; p2] ++ [p3])) (storing [p1_A; p2]))
  = (Ok (Some p3), written (JDict <$> ([p1_A; p2] ++ [p3])) (storing [p1_A; p2])).
Proof.
  split; [reflexivity|]. split; [reflexivity|]. split; [reflexivity|].
  apply (create_then_get_fresh_id (storing [p1_A; p2]) [p1_A; p2] p3 "p3");
    reflexivity.
Defined.

(** C1, as stated, fails when a record with the same id is stored already:
    [create_project] does not look at ids, and [get_project] returns the
    first record with the id, which is the older one. *)
Lemma create_then_get_duplicate_id :
  holds (storing [p1_A]) (JDict <$> [p1_A]) ∧
  p1_C !! "id" = Some (JStr "p1") ∧
  (create_project p1_C (storing [p1_A])).1 = Ok p1_C ∧
  (get_project "p1" (create_project p1_C (storing [p1_A])).2).1
  = Ok (Some p1_A) ∧
  (get_project "p1" (create_project p1_C (storing [p1_A])).2).1
  ≠ Ok (Some p1_C).
Proof.
  split; [reflexivity|]. split; [reflexivity|]. split; [reflexivity|].
  split; [reflexivity|].
  intros Heq. vm_compute in Heq. discriminate Heq.
Qed.

(** ** Reading a file that does not load *)

(** C2, as amended. Whenever [json_load] fails, it raises. When the file
    is missing or its text is not JSON, [get_projects] returns the empty
    sequence instead, leaving the world as it is; any other failure
    (bytes that are not text, JSON text beyond a limit of the interpreter)
    is not caught and [get_projects] raises what [json_load] raised. *)
Theorem get_projects_caught w :
  unreadable w = true →
  (∃ e, json_load w = (Raise e, w)) ∧
  get_projects w
  = (if missing_or_not_json w then (Ok (JList []), w) else json_load w).
Proof.
  destruct w as [[|[|bytes|text|text l|v]] ws]; intros Hw; try done;
    (split; [|try destruct l; done]).
  - by exists FileNotFoundError.
  - by exists FileNotFoundError.
  - by exists UnicodeDecodeError.
  - by exists JSONDecodeError.
  - destruct l; [by exists RecursionError|by exists ValueError].
Qed.

Lemma get_projects_caught_witness :
  unreadable (World (Dir (Garbage "[{")) []) = true ∧
  get_projects (World (Dir (Garbage "[{")) [])
  = (Ok (JList []), World (Dir (Garbage "[{")) []).
Proof.
  split; [reflexivity|].
  apply (get_projects_caught (World (Dir (Garbage "[{")) [])).
  reflexivity.
Defined.

(** C2, as stated, fails for a file whose bytes are not text: [f.read()]
    raises [UnicodeDecodeError], which is neither of the two exceptions
    that [_read_json] catches, so [get_projects] raises it. *)
Lemma get_projects_not_text :
  unreadable not_text = true ∧
  json_load not_text = (Raise UnicodeDecodeError, not_text) ∧
  get_projects not_text = (Raise UnicodeDecodeError, not_text) ∧
  (get_projects not_text).1 ≠ Ok (JList []).
Proof. repeat split; done. Qed.

(** ** [update_project] merges into the first match *)

(** C3, as amended. For the first stored record [p] whose id matches, at
    index [i], [update_project] returns the merge of [update_data] into [p]:
    a field of [update_data] has the value given there, any other field has
    the value it had in [p]. The merged record takes the place of [p] at
    index [i], every other index keeps its record, and the whole sequence
    is written to the file, once. *)
Theorem update_project_merges_first w (recs : list record)
    project_id (update_data : record) i (p : record) :
  holds w (JDict <$> recs) →
  first_match project_id recs i p →
  update_project project_id update_data w
  = (Ok (Some (update_data ∪ p)),
     written (JDict <$> <[i := update_data ∪ p]> recs) w) ∧
  (∀ k v, update_data !! k = Some v → (update_data ∪ p) !! k = Some v) ∧
  (∀ k, update_data !! k = None → (update_data ∪ p) !! k = p !! k) ∧
  <[i := update_data ∪ p]> recs !! i = Some (update_data ∪ p) ∧
  (∀ j, j ≠ i → <[i := update_data ∪ p]> recs !! j = recs !! j) ∧
  length (<[i := update_data ∪ p]> recs) = length recs.
Proof.
  intros H Hfirst. split; [by apply update_project_first|].
  split; [intros k v Hk; by apply lookup_union_Some_l|].
  split; [intros k Hk; by apply lookup_union_r|].
  destruct Hfirst as (Hi & _ & _).
  split; [apply list_lookup_insert_eq; by eapply lookup_lt_Some|].
  split; [intros j Hj; by apply list_lookup_insert_ne|].
  apply length_insert.
Qed.

Lemma update_project_merges_first_witness :
  holds (storing [p2; p1_A; p3]) (JDict <$> [p2; p1_A; p3]) ∧
  first_match "p1" [p2; p1_A; p3] 1 p1_A ∧
  update_project "p1" name_B (storing [p2; p1_A; p3])
  = (Ok (Some (name_B ∪ p1_A)),
     written (JDict <$> <[1 := name_B ∪ p1_A]> [p2; p1_A; p3])
       (storing [p2; p1_A; p3])).
Proof.
  split; [reflexivity|].
  split; [repeat split; reflexivity|].
  apply (update_project_merges_first (storing [p2; p1_A; p3]) [p2; p1_A; p3]
           "p1" name_B 1 p1_A); repeat split; reflexivity.
Defined.

(** The example of the specification: the untouched fields survive. *)
Example update_is_a_merge : name_B ∪ p1_A = p1_B.
Proof. reflexivity. Qed.

(** C3, as stated, fails for a record that shares its id with an earlier
    one: the loop returns at the first match, so the later record [p1_C] is
    neither merged nor returned, and stays as it was at its index. *)
Lemma update_project_skips_later_match :
  holds (storing [p1_A; p1_C]) (JDict <$> [p1_A; p1_C]) ∧
  [p1_A; p1_C] !! 1 = Some p1_C ∧
  id_is "p1" p1_C = true ∧
  update_project "p1" name_B (storing [p1_A; p1_C])
  = (Ok (Some p1_B), written (JDict <$> [p1_B; p1_C]) (storing [p1_A; p1_C])) ∧
  (update_project "p1" name_B (storing [p1_A; p1_C])).1
  ≠ Ok (Some (name_B ∪ p1_C)) ∧
  [p1_B; p1_C] !! 1 ≠ Some (name_B ∪ p1_C).
Proof.
  split; [reflexivity|]. split; [reflexivity|]. split; [reflexivity|].
  split; [reflexivity|].
  split; intros Heq; vm_compute in Heq; discriminate Heq.
Qed.

(** ** [delete_project] *)

(** C4. [delete_project] keeps exactly the records whose id does not match,
    in their order. When some record matches, the shorter sequence is
    written to the file and the result is [True]; when none does, the
    result is [False], nothing is written and the world is as before.
    The result is [True] exactly when the sequence got shorter. *)
Theorem delete_project_exact w (recs : list record) project_id :
  holds w (JDict <$> recs) →
  delete_project project_id w
  = (if existsb (id_is project_id) recs
     then (Ok true, written (JDict <$> others project_id recs) w)
     else (Ok false, w)) ∧
  (∀ p, p ∈ others project_id recs ↔ p ∈ recs ∧ id_is project_id p = false) ∧
  sublist (others project_id recs) recs ∧
  (existsb (id_is project_id) recs = true
   ↔ length (others project_id recs) < length recs) ∧
  (existsb (id_is project_id) recs = false → others project_id recs = recs).
Proof.
  intros H. split; [by apply delete_project_holds|].
  split; [apply elem_of_others|].
  split; [apply others_sublist|].
  split; [|apply others_none].
  split; [apply others_some|].
  destruct (existsb (id_is project_id) recs) eqn:Hex; [done|].
  rewrite others_none by done. lia.
Qed.

Lemma delete_project_exact_witness :
  holds (storing [p1_A; p2; p3]) (JDict <$> [p1_A; p2; p3]) ∧
  delete_project "p2" (storing [p1_A; p2; p3])
  = (Ok true, written (JDict <$> [p1_A; p3]) (storing [p1_A; p2; p3])).
Proof.
  split; [reflexivity|].
  apply (delete_project_exact (storing [p1_A; p2; p3]) [p1_A; p2; p3] "p2").
  reflexivity.
Defined.

(** The other half of the example of the specification. *)
Example delete_nonexistent :
  delete_project "nonexistent" (storing [p1_A; p2; p3])
  = (Ok false, storing [p1_A; p2; p3]).
Proof. reflexivity. Qed.

(** ** [create_project] *)

(** C5. [create_project] puts the record at the end of the stored sequence,
    whatever its id and the ids already there, writes the longer sequence
    to the file and returns the record it was given. The records stored
    before keep their indices; a record whose id is already present ends
    up next to the older one, both with that id. *)
Theorem create_project_appends w (recs : list record) (project_data : record) :
  holds w (JDict <$> recs) →
  create_project project_data w
  = (Ok project_data, written (JDict <$> (recs ++ [project_data])) w) ∧
  (∀ i p, recs !! i = Some p → (recs ++ [project_data]) !! i = Some p) ∧
  (recs ++ [project_data]) !! length recs = Some project_data ∧
  (∀ project_id i p,
     recs !! i = Some p → id_is project_id p = true →
     id_is project_id project_data = true →
     i ≠ length recs ∧
     (recs ++ [project_data]) !! i = Some p ∧
     (recs ++ [project_data]) !! length recs = Some project_data).
Proof.
  intros H.
  split; [by rewrite fmap_app; apply create_project_holds|].
  split; [intros i p Hi; by apply lookup_app_l_Some|].
  split; [by apply list_lookup_middle|].
  intros project_id i p Hi _ _. split; [|split].
  - apply lookup_lt_Some in Hi. lia.
  - by apply lookup_app_l_Some.
  - by apply list_lookup_middle.
Qed.

Lemma create_project_appends_witness :
  holds (storing [p1_A; p2]) (JDict <$> [p1_A; p2]) ∧
  create_project p1_C (storing [p1_A; p2])
  = (Ok p1_C, written (JDict <$> ([p1_A; p2] ++ [p1_C])) (storing [p1_A; p2])).
Proof.
  split; [reflexivity|].
  apply (create_project_appends (storing [p1_A; p2]) [p1_A; p2] p1_C).
  reflexivity.
Defined.

(** ** [update_project] and the other records *)

(** C6. After [update_project], [get_projects] yields a sequence of the
    same length in which every record that is not the first match is the
    record that was at that index before; the first match, if there is
    one, is replaced at its own index by the merged record. *)
Theorem update_project_frame w (recs : list record) project_id
    (update_data : record) :
  holds w (JDict <$> recs) →
  ∃ (found : option record) (recs' : list record),
    (update_project project_id update_data w).1 = Ok found ∧
    get_projects (update_project project_id update_data w).2
    = (Ok (JList (JDict <$> recs')),
       (update_project project_id update_data w).2) ∧
    length recs' = length recs ∧
    (∀ j q, recs !! j = Some q → ¬ first_match project_id recs j q →
            recs' !! j = Some q) ∧
    (∀ j q, first_match project_id recs j q →
            recs' !! j = Some (update_data ∪ q)).
Proof.
  intros H. destruct (first_match_or_none project_id recs)
    as [Hnone|(i & p & Hfirst)].
  - exists None, recs.
    rewrite (update_project_none w recs _ _ H Hnone). simpl.
    split; [done|]. split; [by apply get_projects_holds|].
    split; [done|]. split; [done|].
    intros j q Hj. apply first_match_existsb in Hj. congruence.
  - exists (Some (update_data ∪ p)), (<[i := update_data ∪ p]> recs).
    rewrite (update_project_first w recs _ _ i p H Hfirst). simpl.
    split; [done|].
    split; [apply get_projects_holds, holds_written|].
    split; [apply length_insert|].
    assert (∀ j q, first_match project_id recs j q → j = i ∧ q = p) as Huniq.
    { intros j q (Hj & Hq & Hbefore).
      destruct Hfirst as (Hi & Hp & Hbefore_i).
      destruct (Nat.lt_trichotomy j i) as [Hlt|[->|Hgt]].
      - pose proof (existsb_false_lookup project_id (take i recs) j q
                      Hbefore_i) as Hno.
        rewrite lookup_take_lt in Hno by done.
        specialize (Hno Hj). congruence.
      - split; congruence.
      - pose proof (existsb_false_lookup project_id (take j recs) i p
                      Hbefore) as Hno.
        rewrite lookup_take_lt in Hno by done.
        specialize (Hno Hi). congruence. }
    split.
    + intros j q Hj Hnot. destruct (decide (j = i)) as [->|Hne].
      * exfalso. apply Hnot. destruct Hfirst as (Hi & Hp & Hbefore).
        repeat split; [done| |done]. congruence.
      * by rewrite list_lookup_insert_ne.
    + intros j q Hj. destruct (Huniq j q Hj) as [-> ->].
      destruct Hfirst as (Hi & _ & _).
      apply list_lookup_insert_eq. by eapply lookup_lt_Some.
Qed.

Lemma update_project_frame_witness :
  holds (storing [p1_A; p2; p3]) (JDict <$> [p1_A; p2; p3]) ∧
  ∃ (found : option record) (recs' : list record),
    (update_project "p2" name_B (storing [p1_A; p2; p3])).1 = Ok found ∧
    get_projects (update_project "p2" name_B (storing [p1_A; p2; p3])).2
    = (Ok (JList (JDict <$> recs')),
       (update_project "p2" name_B (storing [p1_A; p2; p3])).2) ∧
    length recs' = length [p1_A; p2; p3] ∧
    (∀ j q, [p1_A; p2; p3] !! j = Some q →
            ¬ first_match "p2" [p1_A; p2; p3] j q → recs' !! j = Some q) ∧
    (∀ j q, first_match "p2" [p1_A; p2; p3] j q →
            recs' !! j = Some (name_B ∪ q)).
Proof.
  split; [reflexivity|].
  apply (update_project_frame (storing [p1_A; p2; p3]) [p1_A; p2; p3]
           "p2" name_B).
  reflexivity.
Defined.

(** The example of the specification: the order is [p1, p2, p3] still. *)
Example update_preserves_position :
  get_projects (update_project "p2" name_B (storing [p1_A; p2; p3])).2
  = (Ok (JList (JDict <$> [p1_A; name_B ∪ p2; p3])),
     (update_project "p2" name_B (storing [p1_A; p2; p3])).2).
Proof. reflexivity. Qed.

(** ** Ids that are not in the store *)

(** C7. For an id that no stored record has, [get_project] and
    [update_project] both return [None], the value no found record is
    returned as, and raise nothing; the world after [update_project] is the
    world before it: the same file, and no further call of [_write_json]. *)
Theorem not_found w (recs : list record) project_id (update_data : record) :
  holds w (JDict <$> recs) →
  existsb (id_is project_id) recs = false →
  get_project project_id w = (Ok None, w) ∧
  update_project project_id update_data w = (Ok None, w) ∧
  (∀ p : record, (Ok None : result (option record)) ≠ Ok (Some p)).
Proof.
  intros H Hnone.
  split; [by eapply get_project_none|].
  split; [by eapply update_project_none|].
  intros p Heq. inversion Heq.
Qed.

Lemma not_found_witness :
  holds (storing [p1_A; p2]) (JDict <$> [p1_A; p2]) ∧
  existsb (id_is "nonexistent") [p1_A; p2] = false ∧
  get_project "nonexistent" (storing [p1_A; p2])
  = (Ok None, storing [p1_A; p2]) ∧
  update_project "nonexistent" name_B (storing [p1_A; p2])
  = (Ok None, storing [p1_A; p2]).
Proof.
  split; [reflexivity|]. split; [reflexivity|].
  pose proof (not_found (storing [p1_A; p2]) [p1_A; p2] "nonexistent" name_B)
    as Hthm.
  split; apply Hthm; reflexivity.
Defined.

(** ** [__init__] *)

(** C8. When the collection file is absent (with or without its
    directory), [__init__] writes the empty sequence to it: afterwards the
    file exists and [get_projects] yields the empty sequence. When the file
    exists, whatever it holds, [__init__] changes nothing and writes
    nothing. *)
Theorem init_ensures_file w :
  ((exists_ w).1 = Ok false →
   __init__ w = (Ok (), written [] w) ∧
   root (written [] w) = Dir (Document (JList [])) ∧
   (exists_ (written [] w)).1 = Ok true ∧
   get_projects (written [] w) = (Ok (JList []), written [] w)) ∧
  ((exists_ w).1 = Ok true → __init__ w = (Ok (), w)).
Proof. by destruct w as [[|[|bytes|text|text l|v]] ws]. Qed.

Lemma init_ensures_file_witness :
  (exists_ (World NoDir [])).1 = Ok false ∧
  __init__ (World NoDir []) = (Ok (), written [] (World NoDir [])) ∧
  (exists_ (storing [p1_A])).1 = Ok true ∧
  __init__ (storing [p1_A]) = (Ok (), storing [p1_A]).
Proof.
  split; [reflexivity|].
  split; [apply (init_ensures_file (World NoDir [])); reflexivity|].
  split; [reflexivity|].
  apply (init_ensures_file (storing [p1_A])); reflexivity.
Defined.

(** ** Creating over a file that is not JSON *)

(** C9, as amended. When the collection file exists and holds text that
    is not JSON, [create_project] succeeds for every record, and the file
    holds the document of the one-record sequence afterwards: the text
    that was there is gone, and [get_projects] yields that one record. *)
Theorem create_over_corrupt_file w text (project_data : record) :
  root w = Dir (Garbage text) →
  create_project project_data w
  = (Ok project_data, written [JDict project_data] w) ∧
  root (written [JDict project_data] w)
  = Dir (Document (JList [JDict project_data])) ∧
  get_projects (written [JDict project_data] w)
  = (Ok (JList [JDict project_data]), written [JDict project_data] w).
Proof.
  intros Hroot. destruct w as [r ws]. simpl in Hroot. by subst r.
Qed.

Lemma create_over_corrupt_file_witness :
  root (World (Dir (Garbage "[{")) []) = Dir (Garbage "[{") ∧
  create_project p2 (World (Dir (Garbage "[{")) [])
  = (Ok p2, written [JDict p2] (World (Dir (Garbage "[{")) [])).
Proof.
  split; [reflexivity|].
  apply (create_over_corrupt_file (World (Dir (Garbage "[{")) []) "[{" p2).
  reflexivity.
Defined.

(** C9, as stated, fails for a file whose bytes are not text: it exists
    and does not hold valid JSON, but [create_project] raises the
    [UnicodeDecodeError] of its read and writes nothing. *)
Lemma create_over_not_text :
  (exists_ not_text).1 = Ok true ∧
  unreadable not_text = true ∧
  create_project p2 not_text = (Raise UnicodeDecodeError, not_text) ∧
  (create_project p2 not_text).1 ≠ Ok p2 ∧
  root (create_project p2 not_text).2 ≠ Dir (Document (JList [JDict p2])).
Proof. repeat split; done. Qed.

(** ** Records without an id *)

(** C10, as amended. A stored record [p] without an ["id"] field, at index
    [i], matches no string id, and no operation raises because of it:
    [get_project] returns some other record or [None]; [update_project]
    leaves [p] at index [i]; [delete_project] keeps [p], at the index [i]
    less the number of records removed before it. *)
Theorem record_without_id w (recs : list record) i (p : record)
    project_id (update_data : record) :
  holds w (JDict <$> recs) →
  recs !! i = Some p →
  p !! "id" = None →
  id_is project_id p = false ∧
  (∃ found, get_project project_id w = (Ok found, w) ∧ found ≠ Some p) ∧
  (∃ found (recs' : list record),
     (update_project project_id update_data w).1 = Ok found ∧
     holds (update_project project_id update_data w).2 (JDict <$> recs') ∧
     recs' !! i = Some p) ∧
  (∃ removed (recs' : list record),
     (delete_project project_id w).1 = Ok removed ∧
     holds (delete_project project_id w).2 (JDict <$> recs') ∧
     recs' !! (i - removed_before project_id i recs) = Some p).
Proof.
  intros H Hi Hid.
  assert (id_is project_id p = false) as Hp by (unfold id_is; by rewrite Hid).
  split; [done|].
  destruct (first_match_or_none project_id recs)
    as [Hnone|(k & q & Hfirst)].
  - split; [exists None; split; [by eapply get_project_none|done]|].
    split.
    + exists None, recs.
      by rewrite (update_project_none w recs _ _ H Hnone).
    + exists false, recs.
      rewrite (delete_project_holds w recs _ H), Hnone. simpl.
      split; [done|]. split; [done|].
      pose proof (others_lookup project_id recs i p Hi Hp) as Hkept.
      by rewrite (others_none project_id recs Hnone) in Hkept.
  - assert (k ≠ i) as Hne.
    { intros ->. destruct Hfirst as (Hk & Hq & _). congruence. }
    split.
    + exists (Some q). split; [by eapply get_project_first|].
      intros [= ->]. destruct Hfirst as (_ & Hq & _). congruence.
    + split.
      * exists (Some (update_data ∪ q)), (<[k := update_data ∪ q]> recs).
        rewrite (update_project_first w recs _ _ k q H Hfirst). simpl.
        split; [done|]. split; [apply holds_written|].
        by rewrite list_lookup_insert_ne.
      * exists true, (others project_id recs).
        rewrite (delete_project_holds w recs _ H),
          (first_match_existsb _ _ _ _ Hfirst). simpl.
        split; [done|]. split; [apply holds_written|].
        by apply others_lookup.
Qed.

Lemma record_without_id_witness :
  holds (storing [p1_A; no_id; p2]) (JDict <$> [p1_A; no_id; p2]) ∧
  [p1_A; no_id; p2] !! 1 = Some no_id ∧
  no_id !! "id" = None ∧
  id_is "p1" no_id = false.
Proof.
  split; [reflexivity|]. split; [reflexivity|]. split; [reflexivity|].
  apply (record_without_id (storing [p1_A; no_id; p2]) [p1_A; no_id; p2]
           1 no_id "p1" name_B); reflexivity.
Defined.

(** C10, as stated, fails for [delete_project]: the record without an id
    is kept, but not at its position once a record before it is removed. *)
Lemma delete_project_moves_record_without_id :
  holds (storing [p1_A; no_id]) (JDict <$> [p1_A; no_id]) ∧
  [p1_A; no_id] !! 1 = Some no_id ∧
  no_id !! "id" = None ∧
  delete_project "p1" (storing [p1_A; no_id])
  = (Ok true, written (JDict <$> [no_id]) (storing [p1_A; no_id])) ∧
  [no_id] !! 1 ≠ Some no_id.
Proof.
  split; [reflexivity|]. split; [reflexivity|]. split; [reflexivity|].
  split; [reflexivity|]. intros Heq. discriminate Heq.
Qed.

(** ** Outside the data model *)

(** What the hypothesis [holds w (JDict <$> recs)] rules out: an item that
    is not a dictionary has no [get], and a document that is not a list
    has no [append]. *)
Example get_project_item_not_a_record :
  (get_project "p1" (World (Dir (Document (JList [JInt 1]))) [])).1
  = Raise AttributeError.
Proof. reflexivity. Qed.

Example create_project_document_not_a_list :
  create_project p2 (World (Dir (Document (JDict ∅))) [])
  = (Raise AttributeError, World (Dir (Document (JDict ∅))) []).
Proof. reflexivity. Qed.

(** * Further properties of the store *)

(** ** Reading *)

Lemma get_project_loop_find project_id (recs : list record) :
  get_project_loop project_id (JDict <$> recs)
  = Ok (List.find (id_is project_id) recs).
Proof.
  induction recs as [|q recs IH]; [done|].
  rewrite fmap_cons. cbn [get_project_loop List.find].
  by destruct (id_is project_id q).
Qed.

(** X1. On a store that holds records, [get_project] is a search for the
    first record with the id: it returns what [List.find] returns on the
    stored sequence, and leaves the world as it is. *)
Theorem get_project_is_find w (recs : list record) project_id :
  holds w (JDict <$> recs) →
  get_project project_id w = (Ok (List.find (id_is project_id) recs), w).
Proof.
  intros H. pose proof (get_project_loop_find project_id recs) as Hloop.
  holds_cases w H; run.
  - by destruct recs.
  - by destruct recs.
  - by rewrite Hloop.
Qed.

Lemma get_project_is_find_witness :
  holds (storing [p1_A; p2; p1_C]) (JDict <$> [p1_A; p2; p1_C]) ∧
  get_project "p1" (storing [p1_A; p2; p1_C])
  = (Ok (List.find (id_is "p1") [p1_A; p2; p1_C]), storing [p1_A; p2; p1_C]).
Proof.
  split; [reflexivity|].
  apply (get_project_is_find (storing [p1_A; p2; p1_C]) [p1_A; p2; p1_C] "p1").
  reflexivity.
Defined.

Lemma get_project_same_world w project_id :
  (get_project project_id w).2 = w.
Proof.
  destruct w as [[|[|bytes|text|text l|v]] ws]; try done;
    [by destruct l|]. run.
  destruct (py_iter v) as [items|e]; simpl; [|done].
  by destruct (get_project_loop project_id items).
Qed.

(** X2. [get_projects] and [get_project] never change the world, whatever
    the file holds and whether they return or raise: the file is as it
    was and no write is logged. *)
Theorem reads_never_write w project_id :
  (get_projects w).2 = w ∧ (get_project project_id w).2 = w.
Proof.
  split; [|apply get_project_same_world].
  destruct w as [[|[|bytes|text|text l|v]] ws]; try done. by destruct l.
Qed.

(** ** Raising and writing *)

(** X3. The three mutating operations call [_write_json] at most once,
    after everything else: when one returns, the world is either unchanged
    or the file holds the one list that was written; when one raises an
    error of reading the file or of scanning the stored list
    ([UnicodeDecodeError], [AttributeError], [TypeError]), nothing has been
    written and the file is as before. This holds for every state of the
    file, well formed or not. *)
Theorem mutations_write_last w project_id
    (project_data update_data : record) :
  writes_once_or_nothing (create_project project_data) w ∧
  writes_once_or_nothing (update_project project_id update_data) w ∧
  writes_once_or_nothing (delete_project project_id) w.
Proof.
  unfold writes_once_or_nothing.
  destruct w as [[|[|bytes|text|text l|v]] ws]; run.
  - split; [done|]. split; by left.
  - repeat split; [right; by eexists | by left | by left].
  - done.
  - repeat split; [right; by eexists | by left | by left].
  - by destruct l.
  - split; [|split].
    + destruct v; simpl; try done. right. by eexists.
    + destruct (py_iter v) as [items|e] eqn:Hiter; simpl; [|done].
      destruct (update_project_loop project_id update_data 0 items)
        as [[[i updated]|]|e]; simpl; [|by left|done].
      destruct v; simpl; try done. right. by eexists.
    + destruct (py_len v) as [n|e]; simpl; [|done].
      destruct (py_iter v) as [items|e]; simpl; [|done].
      destruct (delete_project_filter project_id items) as [kept|e];
        simpl; [|done].
      case_bool_decide; simpl; [right; by eexists | by left].
Qed.

(** What [_write_json] leaves between its two steps: [open] has emptied
    the file, and an empty file is text that is not JSON, so the store
    reads as empty until [json.dump] has written the list. *)
Lemma emptied_file_reads_empty w f :
  root w = Dir f →
  (open_w w).1 = Ok () ∧
  get_projects (open_w w).2 = (Ok (JList []), (open_w w).2).
Proof. intros Hroot. destruct w as [r ws]. simpl in Hroot. by subst r. Qed.

(** ** After [delete_project] *)

Lemma others_no_match project_id (recs : list record) :
  existsb (id_is project_id) (others project_id recs) = false.
Proof.
  unfold others. induction recs as [|q recs IH]; [done|].
  simpl. destruct (id_is project_id q) eqn:Hq; simpl; [done|].
  by rewrite Hq.
Qed.

(** X4. After [delete_project], the id is gone: [get_project] and
    [update_project] return [None] for it and a second [delete_project]
    returns [False], all three without a write. *)
Theorem delete_project_then_gone w (recs : list record) project_id
    (update_data : record) :
  holds w (JDict <$> recs) →
  let w' := (delete_project project_id w).2 in
  get_project project_id w' = (Ok None, w') ∧
  update_project project_id update_data w' = (Ok None, w') ∧
  delete_project project_id w' = (Ok false, w').
Proof.
  intros H w'.
  assert (∃ recs' : list record, holds w' (JDict <$> recs') ∧
            existsb (id_is project_id) recs' = false) as (recs' & H' & Hgone).
  { unfold w'. rewrite (delete_project_holds w recs _ H).
    destruct (existsb (id_is project_id) recs) eqn:Hex.
    - exists (others project_id recs).
      split; [apply holds_written | apply others_no_match].
    - by exists recs. }
  split; [by eapply get_project_none|].
  split; [by eapply update_project_none|].
  by rewrite (delete_project_holds w' recs' _ H'), Hgone.
Qed.

Lemma delete_project_then_gone_witness :
  holds (storing [p1_A; p2; p1_C]) (JDict <$> [p1_A; p2; p1_C]) ∧
  delete_project "p1" (delete_project "p1" (storing [p1_A; p2; p1_C])).2
  = (Ok false, (delete_project "p1" (storing [p1_A; p2; p1_C])).2).
Proof.
  split; [reflexivity|].
  apply (delete_project_then_gone (storing [p1_A; p2; p1_C])
           [p1_A; p2; p1_C] "p1" name_B).
  reflexivity.
Defined.

(** ** After [update_project] *)

Lemma id_is_string_id project_id (p : record) :
  id_is project_id p = true ↔ string_id p = Some project_id.
Proof.
  unfold id_is, string_id. destruct (p !! "id") as [[]|]; try done.
  rewrite bool_decide_eq_true. split; congruence.
Qed.

Lemma string_id_merge_keeps (update_data p : record) :
  update_data !! "id" = None →
  string_id (update_data ∪ p) = string_id p.
Proof. intros Hid. unfold string_id. by rewrite lookup_union_r. Qed.

Lemma id_is_merge_keeps project_id (update_data p : record) :
  update_data !! "id" = None →
  id_is project_id (update_data ∪ p) = id_is project_id p.
Proof. intros Hid. unfold id_is. by rewrite lookup_union_r. Qed.

Lemma first_match_insert project_id (recs : list record) i p (p' : record) :
  first_match project_id recs i p →
  id_is project_id p' = true →
  first_match project_id (<[i := p']> recs) i p'.
Proof.
  intros (Hi & Hp & Hbefore) Hp'. repeat split; [|done|].
  - apply list_lookup_insert_eq. by eapply lookup_lt_Some.
  - by rewrite take_insert_ge.
Qed.

Lemma first_match_merged project_id (recs : list record) i (p : record)
    (update_data : record) :
  first_match project_id recs i p →
  update_data !! "id" = None →
  first_match project_id (<[i := update_data ∪ p]> recs) i (update_data ∪ p).
Proof.
  intros Hfirst Hid. apply (first_match_insert _ _ _ p); [done|].
  rewrite id_is_merge_keeps by done. by destruct Hfirst as (_ & ? & _).
Qed.

(** X5. When [update_data] has no ["id"] field, the record that
    [update_project] has merged is the one [get_project] returns for the
    id afterwards, and a second [update_project] with the same data
    returns the same record and writes the same sequence again. *)
Theorem update_project_then_get w (recs : list record) project_id
    (update_data : record) i (p : record) :
  holds w (JDict <$> recs) →
  first_match project_id recs i p →
  update_data !! "id" = None →
  let merged := update_data ∪ p in
  let w' := written (JDict <$> <[i := merged]> recs) w in
  update_project project_id update_data w = (Ok (Some merged), w') ∧
  get_project project_id w' = (Ok (Some merged), w') ∧
  update_project project_id update_data w'
  = (Ok (Some merged), written (JDict <$> <[i := merged]> recs) w').
Proof.
  intros H Hfirst Hid merged w'.
  assert (first_match project_id (<[i := merged]> recs) i merged) as Hfirst'
    by by apply first_match_merged.
  split; [by apply update_project_first|].
  split; [by eapply get_project_first; [apply holds_written|]|].
  rewrite (update_project_first w' (<[i := merged]> recs) _ _ i merged
             (holds_written _ _) Hfirst').
  assert (update_data ∪ merged = merged) as ->.
  { unfold merged. by rewrite (assoc_L (∪)), (idemp_L (∪)). }
  by rewrite list_insert_insert_eq.
Qed.

Lemma update_project_then_get_witness :
  holds (storing [p2; p1_A]) (JDict <$> [p2; p1_A]) ∧
  first_match "p1" [p2; p1_A] 1 p1_A ∧
  name_B !! "id" = None ∧
  get_project "p1" (written (JDict <$> <[1 := name_B ∪ p1_A]> [p2; p1_A])
                      (storing [p2; p1_A]))
  = (Ok (Some (name_B ∪ p1_A)),
     written (JDict <$> <[1 := name_B ∪ p1_A]> [p2; p1_A])
       (storing [p2; p1_A])).
Proof.
  split; [reflexivity|]. split; [repeat split; reflexivity|].
  split; [reflexivity|].
  apply (update_project_then_get (storing [p2; p1_A]) [p2; p1_A] "p1"
           name_B 1 p1_A); repeat split; reflexivity.
Defined.

(** X6. [update_project] does not protect the id: when [update_data]
    carries another string id, the merged record has that id and no longer
    the one it was found by; unless a later record shares the old id,
    [get_project] with the old id returns [None] afterwards. *)
Theorem update_project_can_change_id w (recs : list record) project_id
    (update_data : record) new_id i (p : record) :
  holds w (JDict <$> recs) →
  first_match project_id recs i p →
  update_data !! "id" = Some (JStr new_id) →
  new_id ≠ project_id →
  existsb (id_is project_id) (drop (S i) recs) = false →
  let w' := (update_project project_id update_data w).2 in
  id_is new_id (update_data ∪ p) = true ∧
  id_is project_id (update_data ∪ p) = false ∧
  get_project project_id w' = (Ok None, w').
Proof.
  intros H Hfirst Hnew Hne Hlater w'.
  assert ((update_data ∪ p) !! "id" = Some (JStr new_id)) as Hmerged
    by by apply lookup_union_Some_l.
  assert (id_is project_id (update_data ∪ p) = false) as Hold.
  { unfold id_is. rewrite Hmerged. by apply bool_decide_eq_false_2. }
  split; [unfold id_is; rewrite Hmerged; by apply bool_decide_eq_true_2|].
  split; [done|].
  unfold w'. rewrite (update_project_first w recs _ _ i p H Hfirst). simpl.
  apply (get_project_none _ (<[i := update_data ∪ p]> recs));
    [apply holds_written|].
  destruct Hfirst as (Hi & Hp & Hbefore).
  rewrite (insert_take_drop recs i) by by eapply lookup_lt_Some.
  rewrite existsb_app. simpl. by rewrite Hbefore, Hold, Hlater.
Qed.

Lemma update_project_can_change_id_witness :
  holds (storing [p2; p1_A]) (JDict <$> [p2; p1_A]) ∧
  first_match "p1" [p2; p1_A] 1 p1_A ∧
  p3 !! "id" = Some (JStr "p3") ∧
  get_project "p1" (update_project "p1" p3 (storing [p2; p1_A])).2
  = (Ok None, (update_project "p1" p3 (storing [p2; p1_A])).2).
Proof.
  split; [reflexivity|]. split; [repeat split; reflexivity|].
  split; [reflexivity|].
  apply (update_project_can_change_id (storing [p2; p1_A]) [p2; p1_A] "p1"
           p3 "p3" 1 p1_A); repeat split; try reflexivity.
  intros Heq. discriminate Heq.
Defined.

(** ** [create_project] undone by [delete_project] *)

Lemma others_app_fresh project_id (recs : list record) (r : record) :
  existsb (id_is project_id) recs = false →
  id_is project_id r = true →
  others project_id (recs ++ [r]) = recs.
Proof.
  intros Hfresh Hr. rewrite others_app, others_none by done.
  unfold others. simpl. rewrite Hr. simpl. apply app_nil_r.
Qed.

(** X7. A record created under a fresh string id and then deleted by that
    id leaves the stored sequence as it was before the two calls;
    [delete_project] returns [True]. *)
Theorem create_then_delete_restores w (recs : list record)
    (project_data : record) project_id :
  holds w (JDict <$> recs) →
  project_data !! "id" = Some (JStr project_id) →
  existsb (id_is project_id) recs = false →
  let w1 := (create_project project_data w).2 in
  delete_project project_id w1
  = (Ok true, written (JDict <$> recs) w1) ∧
  get_projects (written (JDict <$> recs) w1)
  = (Ok (JList (JDict <$> recs)), written (JDict <$> recs) w1).
Proof.
  intros H Hid Hfresh w1.
  assert (id_is project_id project_data = true) as Hr.
  { unfold id_is. rewrite Hid. by apply bool_decide_eq_true_2. }
  split; [|by apply get_projects_holds].
  rewrite (delete_project_holds w1 (recs ++ [project_data]));
    [|by apply create_project_preserves].
  rewrite existsb_app. simpl. rewrite Hr, orb_true_r.
  by rewrite others_app_fresh.
Qed.

Lemma create_then_delete_restores_witness :
  holds (storing [p1_A; p2]) (JDict <$> [p1_A; p2]) ∧
  p3 !! "id" = Some (JStr "p3") ∧
  existsb (id_is "p3") [p1_A; p2] = false ∧
  delete_project "p3" (create_project p3 (storing [p1_A; p2])).2
  = (Ok true, written (JDict <$> [p1_A; p2])
                (create_project p3 (storing [p1_A; p2])).2).
Proof.
  split; [reflexivity|]. split; [reflexivity|]. split; [reflexivity|].
  apply (create_then_delete_restores (storing [p1_A; p2]) [p1_A; p2] p3 "p3");
    reflexivity.
Defined.

(** ** Unique ids *)

Lemma elem_of_ids project_id (recs : list record) :
  project_id ∈ ids recs ↔ existsb (id_is project_id) recs = true.
Proof.
  unfold ids. rewrite list_elem_of_omap, existsb_exists. split.
  - intros (p & Hp & Hid). exists p.
    split; [by apply list_elem_of_In|by apply id_is_string_id].
  - intros (p & Hp & Hid). exists p.
    split; [by apply list_elem_of_In|by apply id_is_string_id].
Qed.

Lemma not_elem_of_ids project_id (recs : list record) :
  project_id ∉ ids recs ↔ existsb (id_is project_id) recs = false.
Proof. rewrite elem_of_ids. by destruct (existsb _ _). Qed.

Lemma ids_others_sublist project_id (recs : list record) :
  sublist (ids (others project_id recs)) (ids recs).
Proof.
  unfold ids, others. induction recs as [|q recs IH]; [done|].
  simpl. destruct (id_is project_id q); simpl.
  - destruct (string_id q); [by apply sublist_cons|done].
  - destruct (string_id q); [by apply sublist_skip|done].
Qed.

Lemma ids_insert_same_id (recs : list record) i (p p' : record) :
  recs !! i = Some p → string_id p' = string_id p →
  ids (<[i := p']> recs) = ids recs.
Proof.
  unfold ids. revert i. induction recs as [|q recs IH]; intros i Hi Hid; [done|].
  destruct i as [|i]; simpl in *.
  - inversion Hi; subst. by rewrite Hid.
  - destruct (string_id q); [f_equal|]; by apply (IH i).
Qed.

Lemma unique_ids_first_match project_id (recs : list record) i (p : record) :
  NoDup (ids recs) → recs !! i = Some p → id_is project_id p = true →
  first_match project_id recs i p.
Proof.
  intros Hnodup Hi Hp. repeat split; [done..|].
  apply not_elem_of_ids. intros Hin.
  rewrite <- (take_drop_middle recs i p Hi) in Hnodup.
  unfold ids in *. rewrite omap_app in Hnodup.
  apply NoDup_app in Hnodup as (_ & Hdisjoint & _).
  apply (Hdisjoint project_id Hin). simpl.
  apply id_is_string_id in Hp. rewrite Hp. by left.
Qed.

(** X8. When no two stored records have the same string id, the record
    with a given id is found wherever it stands: [get_project] returns it,
    and [update_project] merges into it, at its own index. *)
Theorem unique_ids_any_match w (recs : list record) project_id
    (update_data : record) i (p : record) :
  holds w (JDict <$> recs) →
  NoDup (ids recs) →
  recs !! i = Some p →
  id_is project_id p = true →
  get_project project_id w = (Ok (Some p), w) ∧
  update_project project_id update_data w
  = (Ok (Some (update_data ∪ p)),
     written (JDict <$> <[i := update_data ∪ p]> recs) w).
Proof.
  intros H Hnodup Hi Hp.
  pose proof (unique_ids_first_match _ _ _ _ Hnodup Hi Hp) as Hfirst.
  split; [by eapply get_project_first|by apply update_project_first].
Qed.

Lemma unique_ids_any_match_witness :
  holds (storing [p1_A; p2; p3]) (JDict <$> [p1_A; p2; p3]) ∧
  NoDup (ids [p1_A; p2; p3]) ∧
  [p1_A; p2; p3] !! 2 = Some p3 ∧
  id_is "p3" p3 = true ∧
  get_project "p3" (storing [p1_A; p2; p3])
  = (Ok (Some p3), storing [p1_A; p2; p3]).
Proof.
  assert (NoDup (ids [p1_A; p2; p3])) as Hnodup.
  { apply (bool_decide_unpack _). vm_compute. reflexivity. }
  split; [reflexivity|]. split; [exact Hnodup|].
  split; [reflexivity|]. split; [reflexivity|].
  apply (unique_ids_any_match (storing [p1_A; p2; p3]) [p1_A; p2; p3] "p3"
           name_B 2 p3); [reflexivity|exact Hnodup|reflexivity..].
Defined.

(** X9. Ids stay unique as long as the caller creates under fresh ids only:
    [delete_project] always keeps them unique, [update_project] keeps the
    ids as they are when [update_data] has no ["id"] field, and
    [create_project] keeps them unique when the new record has no string
    id or one that no stored record has. *)
Theorem unique_ids_preserved w (recs : list record) project_id
    (project_data update_data : record) :
  holds w (JDict <$> recs) →
  NoDup (ids recs) →
  (∃ recs' : list record,
     holds (delete_project project_id w).2 (JDict <$> recs') ∧
     NoDup (ids recs')) ∧
  (update_data !! "id" = None →
   ∃ recs' : list record,
     holds (update_project project_id update_data w).2 (JDict <$> recs') ∧
     ids recs' = ids recs) ∧
  ((∀ new_id, string_id project_data = Some new_id →
              existsb (id_is new_id) recs = false) →
   holds (create_project project_data w).2
     (JDict <$> (recs ++ [project_data])) ∧
   NoDup (ids (recs ++ [project_data]))).
Proof.
  intros H Hnodup. split; [|split].
  - rewrite (delete_project_holds w recs _ H).
    destruct (existsb (id_is project_id) recs); [|by exists recs].
    exists (others project_id recs). split; [apply holds_written|].
    by eapply sublist_NoDup; [|apply ids_others_sublist].
  - intros Hid. destruct (first_match_or_none project_id recs)
      as [Hnone|(i & p & Hfirst)].
    + exists recs. by rewrite (update_project_none w recs _ _ H Hnone).
    + exists (<[i := update_data ∪ p]> recs).
      rewrite (update_project_first w recs _ _ i p H Hfirst).
      split; [apply holds_written|].
      destruct Hfirst as (Hi & _ & _).
      apply (ids_insert_same_id _ _ p); [done|].
      by apply string_id_merge_keeps.
  - intros Hfresh. split; [by apply create_project_preserves|].
    unfold ids. rewrite omap_app. apply NoDup_app.
    split; [done|]. simpl.
    destruct (string_id project_data) as [new_id|] eqn:Hnew.
    + split; [|apply NoDup_singleton].
      intros x Hx ->%list_elem_of_singleton.
      by apply (not_elem_of_ids new_id recs) in Hx; [|apply Hfresh].
    + split; [|apply NoDup_nil_2]. intros x _ Hx. by apply elem_of_nil in Hx.
Qed.

Lemma unique_ids_preserved_witness :
  holds (storing [p1_A; p2]) (JDict <$> [p1_A; p2]) ∧
  NoDup (ids [p1_A; p2]) ∧
  ∃ recs' : list record,
    holds (delete_project "p2" (storing [p1_A; p2])).2 (JDict <$> recs') ∧
    NoDup (ids recs').
Proof.
  assert (NoDup (ids [p1_A; p2])) as Hnodup.
  { apply (bool_decide_unpack _). vm_compute. reflexivity. }
  split; [reflexivity|]. split; [exact Hnodup|].
  apply (unique_ids_preserved (storing [p1_A; p2]) [p1_A; p2] "p2" p3 name_B);
    [reflexivity|exact Hnodup].
Defined.

(** ** A file with an item that is not a record *)

Lemma get_project_loop_app project_id (recs : list record) rest :
  get_project_loop project_id ((JDict <$> recs) ++ rest)
  = match List.find (id_is project_id) recs with
    | Some p => Ok (Some p)
    | None => get_project_loop project_id rest
    end.
Proof.
  induction recs as [|q recs IH]; [done|].
  rewrite fmap_cons. cbn [app get_project_loop List.find].
  by destruct (id_is project_id q).
Qed.

Lemma find_none_existsb project_id (recs : list record) :
  existsb (id_is project_id) recs = false →
  List.find (id_is project_id) recs = None.
Proof.
  induction recs as [|q recs IH]; [done|]. simpl.
  intros [-> Hrest]%orb_false_iff. by apply IH.
Qed.

Lemma find_first_match project_id (recs : list record) i p :
  first_match project_id recs i p →
  List.find (id_is project_id) recs = Some p.
Proof.
  intros Hfirst. pose proof (get_project_loop_first _ _ _ _ Hfirst) as Hloop.
  rewrite get_project_loop_find in Hloop. by inversion Hloop.
Qed.

Lemma update_project_loop_app project_id (update_data : record) i0
    (recs : list record) rest :
  existsb (id_is project_id) recs = false →
  update_project_loop project_id update_data i0 ((JDict <$> recs) ++ rest)
  = update_project_loop project_id update_data (i0 + length recs) rest.
Proof.
  revert i0. induction recs as [|q recs IH]; intros i0 Hnone.
  - simpl. by rewrite Nat.add_0_r.
  - simpl in Hnone. apply orb_false_iff in Hnone as [Hq Hrest].
    rewrite fmap_cons. cbn [app update_project_loop]. rewrite Hq.
    rewrite (IH (S i0) Hrest). f_equal. simpl. lia.
Qed.

Lemma delete_project_filter_not_dict project_id items :
  forallb is_dict items = false →
  delete_project_filter project_id items = Raise AttributeError.
Proof.
  induction items as [|x items IH]; [done|]. simpl.
  destruct x; simpl; try done. intros Hrest. by rewrite (IH Hrest).
Qed.

(** X10. One item that is not a dictionary in the stored list is enough
    for [delete_project] to raise [AttributeError], for every id, with
    nothing written. [get_project] and [update_project] raise it when no
    record before that item has the id, and otherwise find their record
    without reaching the item. *)
Theorem item_not_a_dict_raises w (recs : list record) x rest project_id
    (update_data : record) :
  root w = Dir (Document (JList ((JDict <$> recs) ++ x :: rest))) →
  is_dict x = false →
  delete_project project_id w = (Raise AttributeError, w) ∧
  (existsb (id_is project_id) recs = false →
   get_project project_id w = (Raise AttributeError, w) ∧
   update_project project_id update_data w = (Raise AttributeError, w)) ∧
  (∀ i p, first_match project_id recs i p →
          get_project project_id w = (Ok (Some p), w)).
Proof.
  intros Hroot Hx. destruct w as [r ws]. simpl in Hroot. subst r.
  split; [|split].
  - run. rewrite delete_project_filter_not_dict; [done|].
    rewrite forallb_app. simpl. rewrite Hx. apply andb_false_r.
  - intros Hnone. run.
    rewrite get_project_loop_app, (find_none_existsb _ _ Hnone).
    rewrite (update_project_loop_app _ _ _ _ _ Hnone).
    by destruct x.
  - intros i p Hfirst. run.
    by rewrite get_project_loop_app, (find_first_match _ _ _ _ Hfirst).
Qed.

Lemma item_not_a_dict_raises_witness :
  root (World (Dir (Document (JList ((JDict <$> [p1_A]) ++ JNull :: [])))) [])
  = Dir (Document (JList ((JDict <$> [p1_A]) ++ JNull :: []))) ∧
  is_dict JNull = false ∧
  delete_project "p1"
    (World (Dir (Document (JList ((JDict <$> [p1_A]) ++ JNull :: [])))) [])
  = (Raise AttributeError,
     World (Dir (Document (JList ((JDict <$> [p1_A]) ++ JNull :: [])))) []).
Proof.
  split; [reflexivity|]. split; [reflexivity|].
  apply (item_not_a_dict_raises
           (World (Dir (Document (JList ((JDict <$> [p1_A]) ++ JNull :: [])))) [])
           [p1_A] JNull [] "p1" name_B); reflexivity.
Defined.

(** ** [__init__], again *)


(** ** Without the storage directory *)

(** X12. When the storage directory is gone, reading still answers as for
    an empty store, since [_read_json] catches [FileNotFoundError]; but
    [create_project] raises it, from [_write_json], and nothing is stored.
    After [__init__] the directory is there and [create_project]
    succeeds. *)
Theorem missing_directory w (project_data : record) project_id
    (update_data : record) :
  root w = NoDir →
  get_projects w = (Ok (JList []), w) ∧
  get_project project_id w = (Ok None, w) ∧
  update_project project_id update_data w = (Ok None, w) ∧
  delete_project project_id w = (Ok false, w) ∧
  create_project project_data w = (Raise FileNotFoundError, w) ∧
  (create_project project_data (__init__ w).2).1 = Ok project_data.
Proof.
  intros Hroot. destruct w as [r ws]. simpl in Hroot. by subst r.
Qed.

Lemma missing_directory_witness :
  root (World NoDir []) = NoDir ∧
  create_project p2 (World NoDir []) = (Raise FileNotFoundError, World NoDir []).
Proof.
  split; [reflexivity|].
  apply (missing_directory (World NoDir []) p2 "p2" name_B). reflexivity.
Defined.

(** * The API layer over the store *)

(** ** What the update route sends to the store *)

Lemma update_data_lookup input now k :
  k ≠ "updated_at" →
  server.update_data input now !! k
  = match server.model_dump input !! k with
    | Some v => if server.is_None v then None else Some v
    | None => None
    end.
Proof.
  intros Hk. unfold server.update_data.
  rewrite lookup_insert_ne by done. rewrite map_lookup_filter.
  destruct (server.model_dump input !! k) as [v|]; [|done]. simpl.
  destruct (server.is_None v); by case_guard.
Qed.

Lemma update_data_no_id input now :
  server.update_data input now !! "id" = None.
Proof. by rewrite update_data_lookup. Qed.

Lemma update_data_no_created_at input now :
  server.update_data input now !! "created_at" = None.
Proof. by rewrite update_data_lookup. Qed.

(** X13. The dictionary that the update route passes to the store has
    ["updated_at"] set to the current time, has the fields of the request
    that are not [None] with their values, and nothing else: no field that
    is [None] in the request, and never ["id"] or ["created_at"]. *)
Theorem update_data_fields input now :
  server.update_data input now !! "updated_at" = Some (JStr now) ∧
  server.update_data input now !! "id" = None ∧
  server.update_data input now !! "created_at" = None ∧
  (∀ k v, k ≠ "updated_at" →
     (server.update_data input now !! k = Some v
      ↔ server.model_dump input !! k = Some v ∧ server.is_None v = false)) ∧
  (∀ k, server.update_data input now !! k = None ↔
        k ≠ "updated_at" ∧
        (server.model_dump input !! k = None ∨
         server.model_dump input !! k = Some JNull)).
Proof.
  split; [apply lookup_insert_eq|].
  split; [apply update_data_no_id|].
  split; [apply update_data_no_created_at|].
  split.
  - intros k v Hk. rewrite update_data_lookup by done.
    destruct (server.model_dump input !! k) as [v'|];
      [|split; [done|by intros [? _]]].
    destruct (server.is_None v') eqn:Hnone; split.
    + done.
    + intros [[= ->] Hv]. congruence.
    + intros [= ->]. done.
    + by intros [[= ->] _].
  - intros k. destruct (decide (k = "updated_at")) as [->|Hk].
    + unfold server.update_data. rewrite lookup_insert_eq.
      split; [done|by intros [? _]].
    + rewrite update_data_lookup by done.
      destruct (server.model_dump input !! k) as [v'|];
        [|split; [by auto|done]].
      destruct v'; simpl; split; try done; try (by intros [_ [?|?]]).
      by auto.
Qed.

(** ** The routes on a store that holds records *)

Lemma not_found_record project_id (p : record) :
  id_is project_id p = true → server.not_ (Some p) = false.
Proof.
  intros Hp. unfold server.not_. apply bool_decide_eq_false_2.
  apply id_is_string_id in Hp. unfold string_id in Hp.
  destruct (p !! "id") as [v|] eqn:Hid; [|done].
  by apply (map_size_ne_0_lookup_2 p "id").
Qed.

Lemma not_merged input now (p : record) :
  server.not_ (Some (server.update_data input now ∪ p)) = false.
Proof.
  unfold server.not_. apply bool_decide_eq_false_2.
  apply (map_size_ne_0_lookup_2 _ "updated_at").
  exists (JStr now). apply lookup_union_Some_l. apply lookup_insert_eq.
Qed.

Section routes.
Context (lax : server.kind → json → bool).

Lemma update_route_first w (recs : list record) project_id input now i
    (p : record) :
  holds w (JDict <$> recs) →
  first_match project_id recs i p →
  server.update_project lax project_id input now w
  = server.return_CADProject lax (server.update_data input now ∪ p)
      (written (JDict <$> <[i := server.update_data input now ∪ p]> recs) w).
Proof.
  intros H Hfirst.
  assert (id_is project_id p = true) as Hp by by destruct Hfirst as (_ & ? & _).
  unfold server.update_project, storage.get_project, storage.update_project.
  rewrite (get_project_first w recs _ i p H Hfirst).
  rewrite (not_found_record _ _ Hp).
  rewrite (update_project_first w recs _ _ i p H Hfirst).
  by rewrite not_merged.
Qed.

Lemma get_route_first w (recs : list record) project_id i (p : record) :
  holds w (JDict <$> recs) →
  first_match project_id recs i p →
  server.get_project lax project_id w = server.return_CADProject lax p w.
Proof.
  intros H Hfirst.
  assert (id_is project_id p = true) as Hp by by destruct Hfirst as (_ & ? & _).
  unfold server.get_project, storage.get_project.
  rewrite (get_project_first w recs _ i p H Hfirst).
  by rewrite (not_found_record _ _ Hp).
Qed.


(** X14. When a stored record has the id, the update route merges the
    request into it and writes it in place, once, before pydantic sees the
    result: the route returns the [CADProject] of the merged record when
    that record validates, and otherwise ends in a [ValidationError] with
    the merged record stored all the same. The merged record keeps the id
    and the creation date of the stored one, carries the current time as
    ["updated_at"], and keeps every field the request leaves out or gives
    as [None]: the route cannot set a field to [None]. The get route then
    answers for the id with the merged record, in the same way. *)
Theorem update_route_merges w (recs : list record) project_id input now i
    (p : record) :
  holds w (JDict <$> recs) →
  first_match project_id recs i p →
  let merged := server.update_data input now ∪ p in
  let w' := written (JDict <$> <[i := merged]> recs) w in
  server.update_project lax project_id input now w
  = (if server.validates lax merged then (server.Return merged, w')
     else (server.Uncaught ValidationError, w')) ∧
  server.get_project lax project_id w'
  = (if server.validates lax merged then (server.Return merged, w')
     else (server.Uncaught ValidationError, w')) ∧
  merged !! "id" = p !! "id" ∧
  merged !! "created_at" = p !! "created_at" ∧
  merged !! "updated_at" = Some (JStr now) ∧
  (∀ k, server.update_data input now !! k = None → merged !! k = p !! k) ∧
  (∀ k v, server.update_data input now !! k = Some v → merged !! k = Some v).
Proof.
  intros H Hfirst merged w'.
  split; [by apply update_route_first|].
  split.
  { apply (get_route_first _ (<[i := merged]> recs) _ i);
      [apply holds_written|].
    apply first_match_merged; [done|apply update_data_no_id]. }
  split; [apply lookup_union_r, update_data_no_id|].
  split; [apply lookup_union_r, update_data_no_created_at|].
  split; [apply lookup_union_Some_l, lookup_insert_eq|].
  split; [intros k Hk; by apply lookup_union_r|].
  intros k v Hk. by apply lookup_union_Some_l.
Qed.


Lemma validates_doc input new_id created_at updated_at :
  server.validates lax (server.doc input new_id created_at updated_at)
  = lax server.KDatetime (JStr created_at)
    && lax server.KDatetime (JStr updated_at).
Proof. by destruct input as [name [description|] width height]. Qed.

(** X16. The create route stores the document it builds at the end of the
    sequence and returns it. When no stored record has the new id, the get
    route answers for the id with that document, which validates as soon
    as pydantic reads its two dates back, and the delete route removes it
    again, leaving the sequence as it was. *)
Theorem create_route_round_trip w (recs : list record) input new_id
    created_at updated_at :
  holds w (JDict <$> recs) →
  existsb (id_is new_id) recs = false →
  let d := server.doc input new_id created_at updated_at in
  let w' := written (JDict <$> (recs ++ [d])) w in
  server.create_project input new_id created_at updated_at w
  = (server.Return d, w') ∧
  server.get_project lax new_id w'
  = (if lax server.KDatetime (JStr created_at)
        && lax server.KDatetime (JStr updated_at)
     then (server.Return d, w')
     else (server.Uncaught ValidationError, w')) ∧
  server.delete_project new_id w'
  = (server.Return {[ "message" := JStr "Project deleted successfully" ]},
     written (JDict <$> recs) w').
Proof.
  intros H Hfresh d w'.
  assert (d !! "id" = Some (JStr new_id)) as Hid by reflexivity.
  assert (id_is new_id d = true) as Hd.
  { unfold id_is. rewrite Hid. by apply bool_decide_eq_true_2. }
  assert (holds w' (JDict <$> (recs ++ [d]))) as H' by apply holds_written.
  split.
  { to_store. fold d. rewrite (create_project_holds w _ d H).
    unfold w'. by rewrite fmap_app. }
  split.
  - rewrite (get_route_first _ (recs ++ [d]) _ (length recs) d H').
    + unfold server.return_CADProject, d. by rewrite validates_doc.
    + repeat split; [by apply list_lookup_middle|done|].
      by rewrite take_app_length.
  - to_store. rewrite (delete_project_holds w' (recs ++ [d]) _ H').
    rewrite existsb_app. simpl. rewrite Hd, orb_true_r. simpl.
    by rewrite others_app_fresh.
Qed.

Lemma update_project_loop_finds project_id (update_data : record) items
    (p : record) i0 :
  get_project_loop project_id items = Ok (Some p) →
  ∃ i, update_project_loop project_id update_data i0 items
       = Ok (Some (i, update_data ∪ p)).
Proof.
  revert i0. induction items as [|x items IH]; intros i0 Hget; [done|].
  destruct x; try done. simpl in *.
  destruct (id_is project_id d).
  - inversion Hget; subst. by exists i0.
  - by apply IH.
Qed.

(** X17. The update route answers 404 only from its first check: whatever
    the file holds, a 404 means that [get_project] of the store found
    nothing for the id, and that nothing was written. Once the first check
    has passed, [update_project] of the store finds the same record, so
    the second check never fires. *)
Theorem update_route_404_is_first_check w w' project_id input now :
  server.update_project lax project_id input now w
  = (server.HTTPException 404, w') →
  w' = w ∧
  ∃ existing, get_project project_id w = (Ok existing, w) ∧
              server.not_ existing = true.
Proof.
  to_store. pose proof (get_project_same_world w project_id) as Hsame.
  assert (∀ p, server.not_ (Some (server.update_data input now ∪ p)) = false)
    as Hmerged by apply not_merged.
  generalize dependent (server.update_data input now). intros u Hmerged.
  destruct (get_project project_id w) as [[existing|e] w1] eqn:Hget;
    [|done].
  simpl in Hsame. subst w1.
  destruct (server.not_ existing) eqn:Hnot.
  { intros [= <-]. split; [done|]. by exists existing. }
  intros Hroute. exfalso.
  destruct existing as [p|]; [|done].
  revert Hget Hroute.
  destruct w as [[|[|bytes|text|text l|v]] ws]; run; try done;
    [by destruct l|].
  destruct (py_iter v) as [items|e] eqn:Hiter; simpl; [|done].
  destruct (get_project_loop project_id items) as [found|e] eqn:Hloop;
    simpl; [|done].
  intros Hfound. assert (found = Some p) as -> by congruence.
  destruct (update_project_loop_finds project_id u items p 0 Hloop)
    as [i ->].
  specialize (Hmerged p). unfold server.not_ in Hmerged.
  simpl. destruct v; simpl; try done. rewrite Hmerged.
  by destruct (server.validates lax (u ∪ p)).
Qed.

End routes.

Lemma update_route_merges_witness :
  holds (storing [p2; p1_A]) (JDict <$> [p2; p1_A]) ∧
  first_match "p1" [p2; p1_A] 1 p1_A ∧
  server.update_project server.dates_only "p1" rename_to_B
    "2026-01-01T00:00:00+00:00" (storing [p2; p1_A])
  = (if server.validates server.dates_only
          (server.update_data rename_to_B "2026-01-01T00:00:00+00:00" ∪ p1_A)
     then (server.Return
             (server.update_data rename_to_B "2026-01-01T00:00:00+00:00"
              ∪ p1_A),
           written
             (JDict <$> <[1 := server.update_data rename_to_B
                                  "2026-01-01T00:00:00+00:00" ∪ p1_A]>
                          [p2; p1_A])
             (storing [p2; p1_A]))
     else (server.Uncaught ValidationError,
           written
             (JDict <$> <[1 := server.update_data rename_to_B
                                  "2026-01-01T00:00:00+00:00" ∪ p1_A]>
                          [p2; p1_A])
             (storing [p2; p1_A]))).
Proof.
  split; [reflexivity|]. split; [repeat split; reflexivity|].
  apply (update_route_merges server.dates_only (storing [p2; p1_A])
           [p2; p1_A] "p1" rename_to_B "2026-01-01T00:00:00+00:00" 1 p1_A);
    repeat split; reflexivity.
Defined.

(** A stored record without a name, updated by a request that gives
    none: the merged record is written, and then does not validate. *)
Example update_route_without_name :
  server.update_project server.dates_only "p9"
    (CADProjectUpdate.Build None (Some "no name") None None None None None
       None None)
    "2026-01-01T00:00:00+00:00" (storing [{[ "id" := JStr "p9" ]}])
  = (server.Uncaught ValidationError,
     written
       [JDict {[ "id" := JStr "p9"; "description" := JStr "no name";
                 "updated_at" := JStr "2026-01-01T00:00:00+00:00" ]}]
       (storing [{[ "id" := JStr "p9" ]}])).
Proof. vm_compute. reflexivity. Qed.


Lemma create_route_round_trip_witness :
  holds (storing [p1_A; p2]) (JDict <$> [p1_A; p2]) ∧
  existsb (id_is "p3") [p1_A; p2] = false ∧
  server.create_project new_project "p3" "t0" "t1" (storing [p1_A; p2])
  = (server.Return (server.doc new_project "p3" "t0" "t1"),
     written (JDict <$> ([p1_A; p2] ++ [server.doc new_project "p3" "t0" "t1"]))
       (storing [p1_A; p2])).
Proof.
  split; [reflexivity|]. split; [reflexivity|].
  apply (create_route_round_trip server.dates_only (storing [p1_A; p2])
           [p1_A; p2] new_project "p3" "t0" "t1"); reflexivity.
Defined.

Lemma update_route_404_is_first_check_witness :
  server.update_project server.dates_only "p3" rename_to_B "t"
    (storing [p1_A; p2])
  = (server.HTTPException 404, storing [p1_A; p2]) ∧
  storing [p1_A; p2] = storing [p1_A; p2].
Proof.
  split; [reflexivity|].
  apply (update_route_404_is_first_check server.dates_only
           (storing [p1_A; p2]) (storing [p1_A; p2]) "p3" rename_to_B "t").
  reflexivity.
Defined.
